(** * A shallow embedding of the Qu-missions protocol simulator

    The program is the React component [App] of the front-end dashboard
    (the last of the sources bundled in [src/README.md]): a BB84 key
    establishment [runInitialization] followed, on demand, by a signature
    round [signAndSend].

    Modelling conventions.
    - JavaScript numbers that only ever hold integers (bits, counters,
      durations, the numeric text fields) are [Z]; array lengths, loop
      indices and event counters are [nat].  The three numeric fields are
      taken to hold integers of magnitude below [10^21], the values that
      [parseInt] reads back unchanged; fractions and larger numbers typed
      into a field are outside the model.
    - The error rate is the one number the program computes by a
      division: it is a binary64 [float], divided and compared with
      [0.45] as the program does it.
    - [Math.random()] is an oracle [rnd : nat -> Q] read through a cursor:
      the [k]-th call returns [rnd k].  A draw is a double, hence a
      rational, and the tests of the code compare a draw with [0.5] or
      with the noise level, so the tests are exact; where a draw is
      scaled for display (phi, the data value of the signature round) the
      raw draw is kept.  Every construct of the program that calls
      [Math.random] advances the cursor, including the packet identifier
      built by [Channel.sendPacket].
    - The React state variables of [App] are the fields of the record
      [App]; a call of a handler is a state transformer.  Setters that take
      a function of the previous value are applied in program order.  The
      [await sleep(..)] pauses do not touch the state and are dropped; the
      values a handler reads from its closure ([qkdRunning], [tampering],
      [qkdN], ...) are those of the state it was called in.
    - Text shown to the user is an inductive type [Text], one constructor
      per string (literal or template) of the source, carrying the values
      interpolated into it.  The wall-clock prefix that [addLog] puts in
      front of a line is not represented.
    - The four UI-control variables [payload], [startSide], [packetColor]
      and [durationMs] are declared but never used by this component and
      are left out. *)

From Stdlib Require Import ZArith QArith List Sorted Ascii String Bool Arith Lia.
From Stdlib Require Import Floats Uint63.
Import ListNotations.

(* A decimal literal in [float_scope] denotes the nearest binary64 value,
   as a numeric literal of the program does. *)
Set Warnings "-inexact-float".
Local Open Scope string_scope.
Local Open Scope list_scope.
Local Open Scope Z_scope.

Set Implicit Arguments.

(** ** Data *)

(** The two measurement bases, the strings ['Z'] and ['X']. *)
Inductive Basis : Type := BZ | BX.

Definition basis_eqb (a b : Basis) : bool :=
  match a, b with
  | BZ, BZ | BX, BX => true
  | _, _ => false
  end.

(** [channelMode] is ['perfect'], ['noisy'] or [null] (here [None]). *)
Inductive ChannelMode : Type := Perfect | Noisy.

(** Details optionally handed to [updateStatus]; [type] is the tag. *)
Inductive FakeDetails : Type :=
| FdPhi (rawPhi : Q) (encrypted : string)
| FdPreP (preimage : Q)
| FdKey (length : nat).

(** Every text of [App].  Draw-valued arguments hold the raw draw [u]:
    [rawPhi] is [u * 2 * Math.PI] printed with four decimals and
    [preimage] is [Math.floor(u * 1_000_000)]. *)
Inductive Text : Type :=
(* initial and reset texts *)
| T_NotStarted | T_Stopped | T_Idle
(* status line, runInitialization *)
| T_InitStarted | T_ChoosingBitsBases | T_SendingQubits (N : nat)
| T_RevealingBases | T_SiftingDone (kept : nat) | T_SelectingSample
| T_QberSample (q : float) | T_EavesdropAbort | T_HighQberAbort
| T_NotEnoughSifted | T_RunningEC | T_DerivingKey | T_KeyDerived (len : nat)
| T_GeneratingPhi | T_PhiSelected | T_InitComplete | T_InitCompleteTamper
(* Alice's panel *)
| T_PreparingQubits | T_AllSent | T_AbortedEavesdrop | T_AbortedHighQber
| T_KeyShown (shown : string) | T_SendingEncPhi (enc : string)
| T_FinishedWithheld
(* Bob's panel *)
| T_WaitingQubits | T_ChoosingMeasBases | T_Measuring (n : nat) (b : Basis)
| T_Measured (n : nat) (y : Z) | T_AllMeasured | T_Reporting
| T_SiftingDoneKept (kept : nat) | T_PreparingSample | T_ApplyingCorrections
| T_ReceivedEncPhi (enc : string) | T_InitCompleteBob
(* log-only lines *)
| L_DetectProb (N : nat) | L_EavesdropDetected (q : float) (flips : nat)
| L_HighQberTamper (q : float) | L_KeyEstablished (len : nat)
| L_PhiSelected (rawPhi : Q) (enc : string) | L_PhiDelivered (enc : string)
| L_DataCollected (preimage : Q) | L_EncodedP | L_ComputedS
| L_SentP | L_SentS | L_SentID | L_TamperQIBS | L_BobMatches
| L_TamperEngaged
(* signAndSend and the tamper button *)
| T_ConvertingP | T_ComputingS | T_ComputingSDots | T_ComputedSSending
| T_ReceivedP | T_ReceivedSID | T_BobComputes | T_Decrypting
| T_VerifFailed | T_SigSentTamper | T_TamperDuringQIBS
| T_VerifComplete | T_SigSentAwaiting | T_SigAccepted | T_Eavesdropping.

(** What a packet shows while it travels. *)
Inductive Content : Type :=
| C_Ket (symbol : string)
| C_Detected (idx : list nat)
| C_Bases (bs : list Basis)
| C_SampleIndices (idx : list nat)
| C_SampleAlice (bits : list Z)
| C_SampleBob (bits : list Z)
| C_EC
| C_Phi (enc : string)
| C_Label (l : string).

(** A packet on a [Channel].  [pkt_id] keeps the [Math.random()] part of
    the identifier. *)
Record Packet : Type := mkPacket {
  pkt_id : Q;
  pkt_content : Content;
  pkt_color : string;
  pkt_start : string;
  pkt_duration : Z
}.

Record AliceState : Type := mkAlice {
  a_bits : list Z;
  a_bases : list Basis;
  a_text : Text;
  a_memoryVisible : bool;
  a_phi : string
}.

Record BobState : Type := mkBob {
  b_bases : list Basis;
  b_results : list Z;
  b_text : Text;
  b_memoryVisible : bool;
  b_phi : string
}.

(** The [sifted] state variable: three parallel arrays. *)
Record Sifted : Type := mkSifted {
  sf_indices : list nat;
  sf_aliceBits : list Z;
  sf_bobBits : list Z
}.

(** One element of [sampleReveal]. *)
Record SampleEntry : Type := mkSample {
  s_index : nat;
  s_alice : Z;
  s_bob : Z
}.

(** The state variables of [App].  A channel field is the [current] of the
    corresponding ref: [None] while the [Channel] is not mounted, otherwise
    the packets handed to it so far. *)
Record App : Type := mkApp {
  running : bool;
  qkdRunning : bool;
  qkdDone : bool;
  classicalCh : option (list Packet);
  quantumCh : option (list Packet);
  channelMode : option ChannelMode;
  noiseIndex : Q;
  noiseLocked : bool;
  aliceState : AliceState;
  bobState : BobState;
  sifted : Sifted;
  revealedSample : list SampleEntry;
  qber : option float;
  sharedKey : option string;
  qkdN : Z;
  pulseIntervalMs : Z;
  qberSampleSize : Z;
  tampering : bool;
  signRunning : bool;
  currentStatus : Text;
  logs : list Text
}.

Definition with_running (v : bool) (st : App) : App :=
  mkApp v (qkdRunning st) (qkdDone st) (classicalCh st) (quantumCh st)
  (channelMode st) (noiseIndex st) (noiseLocked st) (aliceState st)
  (bobState st) (sifted st) (revealedSample st) (qber st) (sharedKey st)
  (qkdN st) (pulseIntervalMs st) (qberSampleSize st) (tampering st)
  (signRunning st) (currentStatus st) (logs st).
Definition with_qkdRunning (v : bool) (st : App) : App :=
  mkApp (running st) v (qkdDone st) (classicalCh st) (quantumCh st)
  (channelMode st) (noiseIndex st) (noiseLocked st) (aliceState st)
  (bobState st) (sifted st) (revealedSample st) (qber st) (sharedKey st)
  (qkdN st) (pulseIntervalMs st) (qberSampleSize st) (tampering st)
  (signRunning st) (currentStatus st) (logs st).
Definition with_qkdDone (v : bool) (st : App) : App :=
  mkApp (running st) (qkdRunning st) v (classicalCh st) (quantumCh st)
  (channelMode st) (noiseIndex st) (noiseLocked st) (aliceState st)
  (bobState st) (sifted st) (revealedSample st) (qber st) (sharedKey st)
  (qkdN st) (pulseIntervalMs st) (qberSampleSize st) (tampering st)
  (signRunning st) (currentStatus st) (logs st).
Definition with_classicalCh (v : option (list Packet)) (st : App) : App :=
  mkApp (running st) (qkdRunning st) (qkdDone st) v (quantumCh st)
  (channelMode st) (noiseIndex st) (noiseLocked st) (aliceState st)
  (bobState st) (sifted st) (revealedSample st) (qber st) (sharedKey st)
  (qkdN st) (pulseIntervalMs st) (qberSampleSize st) (tampering st)
  (signRunning st) (currentStatus st) (logs st).
Definition with_quantumCh (v : option (list Packet)) (st : App) : App :=
  mkApp (running st) (qkdRunning st) (qkdDone st) (classicalCh st) v
  (channelMode st) (noiseIndex st) (noiseLocked st) (aliceState st)
  (bobState st) (sifted st) (revealedSample st) (qber st) (sharedKey st)
  (qkdN st) (pulseIntervalMs st) (qberSampleSize st) (tampering st)
  (signRunning st) (currentStatus st) (logs st).
Definition with_channelMode (v : option ChannelMode) (st : App) : App :=
  mkApp (running st) (qkdRunning st) (qkdDone st) (classicalCh st)
  (quantumCh st) v (noiseIndex st) (noiseLocked st) (aliceState st)
  (bobState st) (sifted st) (revealedSample st) (qber st) (sharedKey st)
  (qkdN st) (pulseIntervalMs st) (qberSampleSize st) (tampering st)
  (signRunning st) (currentStatus st) (logs st).
Definition with_noiseIndex (v : Q) (st : App) : App :=
  mkApp (running st) (qkdRunning st) (qkdDone st) (classicalCh st)
  (quantumCh st) (channelMode st) v (noiseLocked st) (aliceState st)
  (bobState st) (sifted st) (revealedSample st) (qber st) (sharedKey st)
  (qkdN st) (pulseIntervalMs st) (qberSampleSize st) (tampering st)
  (signRunning st) (currentStatus st) (logs st).
Definition with_noiseLocked (v : bool) (st : App) : App :=
  mkApp (running st) (qkdRunning st) (qkdDone st) (classicalCh st)
  (quantumCh st) (channelMode st) (noiseIndex st) v (aliceState st)
  (bobState st) (sifted st) (revealedSample st) (qber st) (sharedKey st)
  (qkdN st) (pulseIntervalMs st) (qberSampleSize st) (tampering st)
  (signRunning st) (currentStatus st) (logs st).
Definition with_aliceState (v : AliceState) (st : App) : App :=
  mkApp (running st) (qkdRunning st) (qkdDone st) (classicalCh st)
  (quantumCh st) (channelMode st) (noiseIndex st) (noiseLocked st) v
  (bobState st) (sifted st) (revealedSample st) (qber st) (sharedKey st)
  (qkdN st) (pulseIntervalMs st) (qberSampleSize st) (tampering st)
  (signRunning st) (currentStatus st) (logs st).
Definition with_bobState (v : BobState) (st : App) : App :=
  mkApp (running st) (qkdRunning st) (qkdDone st) (classicalCh st)
  (quantumCh st) (channelMode st) (noiseIndex st) (noiseLocked st)
  (aliceState st) v (sifted st) (revealedSample st) (qber st) (sharedKey st)
  (qkdN st) (pulseIntervalMs st) (qberSampleSize st) (tampering st)
  (signRunning st) (currentStatus st) (logs st).
Definition with_sifted (v : Sifted) (st : App) : App :=
  mkApp (running st) (qkdRunning st) (qkdDone st) (classicalCh st)
  (quantumCh st) (channelMode st) (noiseIndex st) (noiseLocked st)
  (aliceState st) (bobState st) v (revealedSample st) (qber st) (sharedKey
  st) (qkdN st) (pulseIntervalMs st) (qberSampleSize st) (tampering st)
  (signRunning st) (currentStatus st) (logs st).
Definition with_revealedSample (v : list SampleEntry) (st : App) : App :=
  mkApp (running st) (qkdRunning st) (qkdDone st) (classicalCh st)
  (quantumCh st) (channelMode st) (noiseIndex st) (noiseLocked st)
  (aliceState st) (bobState st) (sifted st) v (qber st) (sharedKey st) (qkdN
  st) (pulseIntervalMs st) (qberSampleSize st) (tampering st) (signRunning
  st) (currentStatus st) (logs st).
Definition with_qber (v : option float) (st : App) : App :=
  mkApp (running st) (qkdRunning st) (qkdDone st) (classicalCh st)
  (quantumCh st) (channelMode st) (noiseIndex st) (noiseLocked st)
  (aliceState st) (bobState st) (sifted st) (revealedSample st) v (sharedKey
  st) (qkdN st) (pulseIntervalMs st) (qberSampleSize st) (tampering st)
  (signRunning st) (currentStatus st) (logs st).
Definition with_sharedKey (v : option string) (st : App) : App :=
  mkApp (running st) (qkdRunning st) (qkdDone st) (classicalCh st)
  (quantumCh st) (channelMode st) (noiseIndex st) (noiseLocked st)
  (aliceState st) (bobState st) (sifted st) (revealedSample st) (qber st) v
  (qkdN st) (pulseIntervalMs st) (qberSampleSize st) (tampering st)
  (signRunning st) (currentStatus st) (logs st).
Definition with_qkdN (v : Z) (st : App) : App :=
  mkApp (running st) (qkdRunning st) (qkdDone st) (classicalCh st)
  (quantumCh st) (channelMode st) (noiseIndex st) (noiseLocked st)
  (aliceState st) (bobState st) (sifted st) (revealedSample st) (qber st)
  (sharedKey st) v (pulseIntervalMs st) (qberSampleSize st) (tampering st)
  (signRunning st) (currentStatus st) (logs st).
Definition with_pulseIntervalMs (v : Z) (st : App) : App :=
  mkApp (running st) (qkdRunning st) (qkdDone st) (classicalCh st)
  (quantumCh st) (channelMode st) (noiseIndex st) (noiseLocked st)
  (aliceState st) (bobState st) (sifted st) (revealedSample st) (qber st)
  (sharedKey st) (qkdN st) v (qberSampleSize st) (tampering st) (signRunning
  st) (currentStatus st) (logs st).
Definition with_qberSampleSize (v : Z) (st : App) : App :=
  mkApp (running st) (qkdRunning st) (qkdDone st) (classicalCh st)
  (quantumCh st) (channelMode st) (noiseIndex st) (noiseLocked st)
  (aliceState st) (bobState st) (sifted st) (revealedSample st) (qber st)
  (sharedKey st) (qkdN st) (pulseIntervalMs st) v (tampering st)
  (signRunning st) (currentStatus st) (logs st).
Definition with_tampering (v : bool) (st : App) : App :=
  mkApp (running st) (qkdRunning st) (qkdDone st) (classicalCh st)
  (quantumCh st) (channelMode st) (noiseIndex st) (noiseLocked st)
  (aliceState st) (bobState st) (sifted st) (revealedSample st) (qber st)
  (sharedKey st) (qkdN st) (pulseIntervalMs st) (qberSampleSize st) v
  (signRunning st) (currentStatus st) (logs st).
Definition with_signRunning (v : bool) (st : App) : App :=
  mkApp (running st) (qkdRunning st) (qkdDone st) (classicalCh st)
  (quantumCh st) (channelMode st) (noiseIndex st) (noiseLocked st)
  (aliceState st) (bobState st) (sifted st) (revealedSample st) (qber st)
  (sharedKey st) (qkdN st) (pulseIntervalMs st) (qberSampleSize st)
  (tampering st) v (currentStatus st) (logs st).
Definition with_currentStatus (v : Text) (st : App) : App :=
  mkApp (running st) (qkdRunning st) (qkdDone st) (classicalCh st)
  (quantumCh st) (channelMode st) (noiseIndex st) (noiseLocked st)
  (aliceState st) (bobState st) (sifted st) (revealedSample st) (qber st)
  (sharedKey st) (qkdN st) (pulseIntervalMs st) (qberSampleSize st)
  (tampering st) (signRunning st) v (logs st).
Definition with_logs (v : list Text) (st : App) : App :=
  mkApp (running st) (qkdRunning st) (qkdDone st) (classicalCh st)
  (quantumCh st) (channelMode st) (noiseIndex st) (noiseLocked st)
  (aliceState st) (bobState st) (sifted st) (revealedSample st) (qber st)
  (sharedKey st) (qkdN st) (pulseIntervalMs st) (qberSampleSize st)
  (tampering st) (signRunning st) (currentStatus st) v.

(** ** The state monad of a handler call *)

(** The application state and the number of [Math.random()] calls made. *)
Record World : Type := mkWorld {
  app : App;
  cursor : nat
}.

Definition M (A : Type) : Type := World -> A * World.

Definition ret {A} (a : A) : M A := fun w => (a, w).

Definition bind {A B} (m : M A) (f : A -> M B) : M B :=
  fun w => let (a, w') := m w in f a w'.

Declare Scope engine_scope.
Delimit Scope engine_scope with engine.
Notation "x <- m ;; k" := (bind m (fun x => k))
  (at level 61, m at next level, right associativity) : engine_scope.
Notation "m ;; k" := (bind m (fun _ => k))
  (at level 61, right associativity) : engine_scope.
Local Open Scope engine_scope.

Definition modify (f : App -> App) : M unit :=
  fun w => (tt, mkWorld (f (app w)) (cursor w)).

(** [for (let i = 0; i < n; i++) acc = body(i, acc)], counting from [i]. *)
Fixpoint for_loop {S} (n i : nat) (body : nat -> S -> M S) (acc : S) : M S :=
  match n with
  | O => ret acc
  | Datatypes.S n' => acc' <- body i acc ;; for_loop n' (Datatypes.S i) body acc'
  end.

(** The React setters. *)
Definition setQkdRunning v := modify (with_qkdRunning v).
Definition setQkdDone v := modify (with_qkdDone v).
Definition setSharedKey v := modify (with_sharedKey v).
Definition setLogs v := modify (with_logs v).
Definition setNoiseLocked v := modify (with_noiseLocked v).
Definition setSifted v := modify (with_sifted v).
Definition setRevealedSample v := modify (with_revealedSample v).
Definition setQber v := modify (with_qber v).
Definition setCurrentStatus v := modify (with_currentStatus v).
Definition setTampering v := modify (with_tampering v).
Definition setSignRunning v := modify (with_signRunning v).
Definition setAliceState (f : AliceState -> AliceState) :=
  modify (fun st => with_aliceState (f (aliceState st)) st).
Definition setBobState (f : BobState -> BobState) :=
  modify (fun st => with_bobState (f (bobState st)) st).
Definition setSiftedPrev (f : Sifted -> Sifted) :=
  modify (fun st => with_sifted (f (sifted st)) st).

(** Object spreads [{ ...prev, field: v }]. *)
Definition a_with_text (t : Text) (p : AliceState) : AliceState :=
  mkAlice (a_bits p) (a_bases p) t (a_memoryVisible p) (a_phi p).
Definition a_with_bits_bases (bits : list Z) (bases : list Basis)
    (p : AliceState) : AliceState :=
  mkAlice bits bases (a_text p) (a_memoryVisible p) (a_phi p).
Definition a_with_phi_text (phi : string) (t : Text) (p : AliceState) : AliceState :=
  mkAlice (a_bits p) (a_bases p) t (a_memoryVisible p) phi.
Definition b_with_text (t : Text) (p : BobState) : BobState :=
  mkBob (b_bases p) (b_results p) t (b_memoryVisible p) (b_phi p).
Definition b_with_bases_text (bases : list Basis) (t : Text) (p : BobState) : BobState :=
  mkBob bases (b_results p) t (b_memoryVisible p) (b_phi p).
Definition b_with_results_text (results : list Z) (t : Text) (p : BobState) : BobState :=
  mkBob (b_bases p) results t (b_memoryVisible p) (b_phi p).
Definition b_with_phi_text (phi : string) (t : Text) (p : BobState) : BobState :=
  mkBob (b_bases p) (b_results p) t (b_memoryVisible p) phi.
Definition sifted_with_bobBits (bits : list Z) (p : Sifted) : Sifted :=
  mkSifted (sf_indices p) (sf_aliceBits p) bits.

(** [addLog]: appends a line to [logs]. *)
Definition addLog (text : Text) : M unit :=
  modify (fun st => with_logs (logs st ++ [text]) st).

(** [updateStatus(text, shouldLog = false, fakeDetails = null)]. *)
Definition updateStatus (text : Text) (shouldLog : bool)
    (fakeDetails : option FakeDetails) : M unit :=
  setCurrentStatus text ;;
  if shouldLog then
    match fakeDetails with
    | Some (FdPhi rawPhi encrypted) => addLog (L_PhiSelected rawPhi encrypted)
    | Some (FdPreP preimage) =>
        addLog (L_DataCollected preimage) ;; addLog L_EncodedP
    | Some (FdKey len) => addLog (L_KeyEstablished len)
    | None => addLog text
    end
  else ret tt.

(** [x < y] on numbers. *)
Definition Qltb (x y : Q) : bool := negb (Qle_bool y x).

(** [u < 0.5 ? 0 : 1] and [u < 0.5 ? 'Z' : 'X'] for a draw [u]. *)
Definition bit_of_draw (u : Q) : Z := if Qltb u (1 # 2) then 0 else 1.
Definition basis_of_draw (u : Q) : Basis := if Qltb u (1 # 2) then BZ else BX.

Section Engine.

(** The values returned by successive calls of [Math.random()]. *)
Variable rnd : nat -> Q.

Definition random : M Q :=
  fun w => (rnd (cursor w), mkWorld (app w) (Datatypes.S (cursor w))).

Definition randBit : M Z :=
  u <- random ;; ret (bit_of_draw u).

Definition randBasis : M Basis :=
  u <- random ;; ret (basis_of_draw u).

(** [Channel.sendPacket]: the identifier draws from [Math.random()]; the
    packet is appended to the channel's list. *)
Definition sendPacket (content : Content) (color start : string)
    (duration : Z) (packets : list Packet) : M (list Packet) :=
  u <- random ;;
  ret (packets ++ [mkPacket u content color start duration]).

(** [sendClassical(content, sender, duration)]. *)
Definition sendClassical (content : Content) (sender : string)
    (duration : Z) : M unit :=
  fun w =>
    match classicalCh (app w) with
    | None => (tt, w)
    | Some packets =>
        (p <- sendPacket content "#1976d2"
               (if String.eqb sender "alice" then "left" else "right")
               duration packets ;;
         modify (with_classicalCh (Some p))) w
    end.

(** [sendQuantum(content, duration)]. *)
Definition sendQuantum (content : Content) (duration : Z) : M unit :=
  fun w =>
    match quantumCh (app w) with
    | None => (tt, w)
    | Some packets =>
        (p <- sendPacket content "#9c27b0" "left" duration packets ;;
         modify (with_quantumCh (Some p))) w
    end.


(** ** Parameters of a run *)

(** [parseInt(v, 10) || d] for an integer [v] of magnitude below
    [10^21]: [parseInt] gives [v] back and the default replaces [0].
    (For a fraction [parseInt] truncates, and from [10^21] on it reads
    the first digit of the exponent form; the fields are not taken to
    hold such values.) *)
Definition js_or (v d : Z) : Z := if v =? 0 then d else v.

(** [Math.max(1, parseInt(qkdN, 10) || 5)]. *)
Definition param_N (st : App) : nat := Z.to_nat (Z.max 1 (js_or (qkdN st) 5)).

(** [Math.max(100, parseInt(pulseIntervalMs, 10) || 1000)]. *)
Definition param_pulseInterval (st : App) : Z :=
  Z.max 100 (js_or (pulseIntervalMs st) 1000).

(** [Math.max(0, parseInt(qberSampleSize, 10) || 2)]. *)
Definition param_sampleSize (st : App) : nat :=
  Z.to_nat (Z.max 0 (js_or (qberSampleSize st) 2)).

(** [channelMode === 'noisy' ? noiseIndex : 0]. *)
Definition param_noise (st : App) : Q :=
  match channelMode st with
  | Some Noisy => noiseIndex st
  | _ => 0%Q
  end.

(** Array reads [a[i]].  Every read of the program is in range (the
    arrays read in a loop over [0 .. N-1] have [N] elements), so the
    default value is never observed. *)
Definition bit_at (a : list Z) (i : nat) : Z := nth i a 0.
Definition basis_at (a : list Basis) (i : nat) : Basis := nth i a BZ.

(** ** Step 1: Alice prepares the qubits *)

Definition prepare_body (_ : nat) (acc : list Z * list Basis)
    : M (list Z * list Basis) :=
  b <- randBit ;;
  a <- randBasis ;;
  ret (fst acc ++ [b], snd acc ++ [a]).

Definition prepare (N : nat) : M (list Z * list Basis) :=
  for_loop N 0 prepare_body ([], []).

(** ** Step 2: Bob measures *)

(** The outcome [y] of one measurement and the updated count of flips
    introduced by tampering. *)
Definition measure_outcome (noise : Q) (tamper : bool)
    (aliceBits : list Z) (aliceBases : list Basis) (i : nat) (bB : Basis)
    (tamperIntroducedCount : nat) : M (Z * nat) :=
  u <- random ;;
  y <- (if Qltb u noise then randBit
        else if basis_eqb bB (basis_at aliceBases i)
             then ret (bit_at aliceBits i)
             else randBit) ;;
  if tamper then
    v <- random ;;
    if Qltb v (1 # 2)
    then ret (1 - y, Datatypes.S tamperIntroducedCount)
    else ret (y, tamperIntroducedCount)
  else ret (y, tamperIntroducedCount).

(** The local variables of the measurement loop. *)
Record Meas : Type := mkMeas {
  bobBases : list Basis;
  bobResults : list Z;
  tamperIntroducedCount : nat
}.

(** The symbol inside the ket of the packet for qubit [i]. *)
Definition ket_symbol (aliceBits : list Z) (aliceBases : list Basis)
    (i : nat) : string :=
  match basis_at aliceBases i with
  | BZ => if bit_at aliceBits i =? 0 then "0" else "1"
  | BX => if bit_at aliceBits i =? 0 then "+" else "-"
  end.

Definition measure_body (noise : Q) (tamper : bool) (pulseInterval : Z)
    (aliceBits : list Z) (aliceBases : list Basis)
    (i : nat) (m : Meas) : M Meas :=
  bB <- randBasis ;;
  setBobState (fun prev =>
    b_with_bases_text (b_bases prev ++ [bB]) (T_Measuring (i + 1) bB) prev) ;;
  sendQuantum (C_Ket (ket_symbol aliceBits aliceBases i))
              (Z.max 100 (pulseInterval - 100)) ;;
  r <- measure_outcome noise tamper aliceBits aliceBases i bB
         (tamperIntroducedCount m) ;;
  setBobState (fun prev =>
    b_with_results_text (b_results prev ++ [fst r])
                        (T_Measured (i + 1) (fst r)) prev) ;;
  ret (mkMeas (bobBases m ++ [bB]) (bobResults m ++ [fst r]) (snd r)).

Definition measure (noise : Q) (tamper : bool) (pulseInterval : Z) (N : nat)
    (aliceBits : list Z) (aliceBases : list Basis) : M Meas :=
  for_loop N 0 (measure_body noise tamper pulseInterval aliceBits aliceBases)
           (mkMeas [] [] 0).


(** ** Step 4: sifting *)

(** The test [aliceBases[i] === bobBases[i]]. *)
Definition bases_match (aliceBases bobBases : list Basis) (i : nat) : bool :=
  basis_eqb (basis_at aliceBases i) (basis_at bobBases i).

(** One turn of the sifting loop. *)
Definition sift_step (aliceBases bobBases : list Basis)
    (aliceBits bobResults : list Z) (i : nat) (acc : Sifted) : Sifted :=
  if bases_match aliceBases bobBases i
  then mkSifted (sf_indices acc ++ [i])
                (sf_aliceBits acc ++ [bit_at aliceBits i])
                (sf_bobBits acc ++ [bit_at bobResults i])
  else acc.

Fixpoint sift_from (n i : nat) (aliceBases bobBases : list Basis)
    (aliceBits bobResults : list Z) (acc : Sifted) : Sifted :=
  match n with
  | O => acc
  | S n' =>
      sift_from n' (S i) aliceBases bobBases aliceBits bobResults
        (sift_step aliceBases bobBases aliceBits bobResults i acc)
  end.

(** [keepIndices], [aBitsSifted] and [bBitsSifted] after the loop. *)
Definition sift (N : nat) (aliceBases bobBases : list Basis)
    (aliceBits bobResults : list Z) : Sifted :=
  sift_from N 0 aliceBases bobBases aliceBits bobResults (mkSifted [] [] []).

(** ** Step 5: the sample and the error rate *)

(** [keepIndices.slice(0, sampleSize).map(i => ({ index: i, alice:
    aliceBits[i], bob: bobResults[i] }))]. *)
Definition sample (sampleSize : nat) (keepIndices : list nat)
    (aliceBits bobResults : list Z) : list SampleEntry :=
  map (fun i => mkSample i (bit_at aliceBits i) (bit_at bobResults i))
      (firstn sampleSize keepIndices).

(** [sampleReveal.filter(s => s.alice !== s.bob).length]. *)
Definition sample_errors (sampleReveal : list SampleEntry) : nat :=
  List.length (filter (fun s => negb (s_alice s =? s_bob s)) sampleReveal).

(** A count held in a JavaScript number: the binary64 value of the
    integer, exact for every count below [2^53] (an array has fewer than
    [2^32] elements). *)
Definition count_to_number (n : nat) : float :=
  PrimFloat.of_uint63 (Uint63.of_Z (Z.of_nat n)).

(** [sampleReveal.length > 0 ? errors / sampleReveal.length : 0].  The
    two counts are divided as the program divides them, in binary64: the
    result is the double nearest to the exact ratio, not the ratio. *)
Definition sample_qber (sampleReveal : list SampleEntry) : float :=
  if (0 <? List.length sampleReveal)%nat
  then PrimFloat.div (count_to_number (sample_errors sampleReveal))
                     (count_to_number (List.length sampleReveal))
  else 0%float.

(** ** The run *)

(** The [return] a call of [runInitialization] leaves through: the guard
    on entry, one of the two aborts of step 5, or the end of either branch
    of the final conditional. *)
Inductive Exit : Type :=
| Rejected
| AbortEavesdrop
| AbortHighQber
| Complete
| FinishedWithheld.

Definition aborted (e : Exit) : bool :=
  match e with
  | AbortEavesdrop | AbortHighQber => true
  | _ => false
  end.

(** The resets at the start of a run. *)
Definition init_reset : M unit :=
  setQkdRunning true ;;
  setQkdDone false ;;
  setSharedKey None ;;
  setLogs [] ;;
  updateStatus T_InitStarted true None ;;
  setNoiseLocked true ;;
  setAliceState (fun _ => mkAlice [] [] T_PreparingQubits true "") ;;
  setBobState (fun _ => mkBob [] [] T_WaitingQubits true "") ;;
  setSifted (mkSifted [] [] []) ;;
  setRevealedSample [] ;;
  setQber None.

(** Step 1: Alice draws her bits and bases; returns [(aliceBits,
    aliceBases)]. *)
Definition step1 (N : nat) : M (list Z * list Basis) :=
  updateStatus T_ChoosingBitsBases false None ;;
  a <- prepare N ;;
  setAliceState (a_with_bits_bases (fst a) (snd a)) ;;
  updateStatus (T_SendingQubits N) false None ;;
  setBobState (b_with_text T_ChoosingMeasBases) ;;
  ret a.

(** Step 2: the qubits are sent one by one and Bob measures them. *)
Definition step2 (noise : Q) (tamper : bool) (pulseInterval : Z) (N : nat)
    (aliceBits : list Z) (aliceBases : list Basis) : M Meas :=
  m <- measure noise tamper pulseInterval N aliceBits aliceBases ;;
  setAliceState (a_with_text T_AllSent) ;;
  setBobState (b_with_text T_AllMeasured) ;;
  ret m.

(** Step 3: Bob reports the detected indices and his bases. *)
Definition step3 (pulseInterval : Z) (N : nat) (bobBases : list Basis)
    : M unit :=
  setBobState (b_with_text T_Reporting) ;;
  sendClassical (C_Detected (seq 0 N)) "bob" pulseInterval ;;
  sendClassical (C_Bases bobBases) "bob" pulseInterval.

(** Step 4: Alice reveals her bases and both sides sift. *)
Definition step4 (pulseInterval : Z) (N : nat)
    (aliceBits : list Z) (aliceBases bobBases : list Basis)
    (bobResults : list Z) : M Sifted :=
  updateStatus T_RevealingBases false None ;;
  sendClassical (C_Bases aliceBases) "alice" pulseInterval ;;
  let kept := sift N aliceBases bobBases aliceBits bobResults in
  setSifted kept ;;
  updateStatus (T_SiftingDone (List.length (sf_indices kept))) false None ;;
  setBobState (b_with_text (T_SiftingDoneKept (List.length (sf_indices kept)))) ;;
  ret kept.

(** The two aborts. *)
Definition abort_eavesdrop (q : float) (tamperIntroducedCount : nat) : M Exit :=
  addLog (L_EavesdropDetected q tamperIntroducedCount) ;;
  updateStatus T_EavesdropAbort true None ;;
  setAliceState (a_with_text T_AbortedEavesdrop) ;;
  setBobState (b_with_text T_AbortedEavesdrop) ;;
  setNoiseLocked false ;;
  setQkdRunning false ;;
  setQkdDone false ;;
  ret AbortEavesdrop.

Definition abort_high_qber (q : float) : M Exit :=
  addLog (L_HighQberTamper q) ;;
  updateStatus T_HighQberAbort true None ;;
  setAliceState (a_with_text T_AbortedHighQber) ;;
  setBobState (b_with_text T_AbortedHighQber) ;;
  setNoiseLocked false ;;
  setQkdRunning false ;;
  setQkdDone false ;;
  ret AbortHighQber.

(** Step 5.  [Some e]: the run returned through abort [e]; [None]: it
    goes on to step 6. *)
Definition step5 (tamper : bool) (pulseInterval : Z) (N sampleSize : nat)
    (keepIndices : list nat) (aliceBits bobResults : list Z)
    (tamperIntroducedCount : nat) : M (option Exit) :=
  updateStatus T_SelectingSample false None ;;
  setBobState (b_with_text T_PreparingSample) ;;
  let sampleReveal := sample sampleSize keepIndices aliceBits bobResults in
  setRevealedSample sampleReveal ;;
  if (0 <? List.length sampleReveal)%nat then
    sendClassical (C_SampleIndices (map s_index sampleReveal)) "alice"
                  pulseInterval ;;
    sendClassical (C_SampleAlice (map s_alice sampleReveal)) "alice"
                  pulseInterval ;;
    sendClassical (C_SampleBob (map s_bob sampleReveal)) "bob"
                  pulseInterval ;;
    let q := sample_qber sampleReveal in
    setQber (Some q) ;;
    updateStatus (T_QberSample q) false None ;;
    (if tamper then addLog (L_DetectProb N) else ret tt) ;;
    if tamper then
      if PrimFloat.leb q 0.45%float
      then e <- abort_eavesdrop q tamperIntroducedCount ;; ret (Some e)
      else e <- abort_high_qber q ;; ret (Some e)
    else ret None
  else
    setQber (Some 0%float) ;;
    updateStatus T_NotEnoughSifted false None ;;
    ret None.

(** Step 6: Bob's sifted bits are replaced by a copy of Alice's. *)
Definition step6 (pulseInterval : Z) (aBitsSifted : list Z) : M unit :=
  updateStatus T_RunningEC false None ;;
  setBobState (b_with_text T_ApplyingCorrections) ;;
  let correctedBobBits := aBitsSifted in
  setSiftedPrev (sifted_with_bobBits correctedBobBits) ;;
  sendClassical C_EC "alice" pulseInterval.

(** [String(b)] for a bit. *)
Definition show_bit (b : Z) : string := if b =? 0 then "0" else "1".

(** [bits.join('')]. *)
Definition join_bits (bits : list Z) : string :=
  String.concat "" (map show_bit bits).

(** The images of [n] consecutive draws starting at draw [c]. *)
Definition fresh_bits (c n : nat) : list Z :=
  map (fun j => bit_of_draw (rnd (c + j))) (seq 0 n).

(** [Array.from({ length: n }, () => randBit())]. *)
Definition random_bits (n : nat) : M (list Z) :=
  for_loop n 0 (fun _ acc => b <- randBit ;; ret (acc ++ [b])) [].

(** [Math.max(2 * N, Math.max(0, aBitsSifted.length))]. *)
Definition desiredLen (N : nat) (aBitsSifted : list Z) : nat :=
  Nat.max (2 * N) (Nat.max 0 (List.length aBitsSifted)).

(** The key as the panels show it. *)
Definition key_shown (k : string) : string :=
  if (0 <? String.length k)%nat
  then if (20 <? String.length k)%nat
       then (String.substring 0 20 k ++ "...")%string
       else k
  else "(empty)".

(** Step 7: the key. *)
Definition step7 (N : nat) (aBitsSifted : list Z) : M string :=
  updateStatus T_DerivingKey false None ;;
  bits <- random_bits (desiredLen N aBitsSifted) ;;
  let simulatedKeyBits := join_bits bits in
  setSharedKey (Some simulatedKeyBits) ;;
  updateStatus (T_KeyDerived (String.length simulatedKeyBits)) true
               (Some (FdKey (String.length simulatedKeyBits))) ;;
  setAliceState (a_with_text (T_KeyShown (key_shown simulatedKeyBits))) ;;
  setBobState (b_with_text (T_KeyShown (key_shown simulatedKeyBits))) ;;
  ret simulatedKeyBits.

(** One character of [phiEncrypted]. *)
Definition phi_char : M string :=
  u <- random ;; ret (if Qltb u (1 # 2) then "0" else "1").

(** The last part of the run: phi is generated and sent unless tampering
    is on. *)
Definition phi_exchange (tamper : bool) (pulseInterval : Z) : M Exit :=
  if negb tamper then
    updateStatus T_GeneratingPhi true None ;;
    rawPhi <- random ;;
    c1 <- phi_char ;; c2 <- phi_char ;; c3 <- phi_char ;;
    c4 <- phi_char ;; c5 <- phi_char ;; c6 <- phi_char ;;
    let phiEncrypted := (c1 ++ c2 ++ c3 ++ c4 ++ c5 ++ c6)%string in
    updateStatus T_PhiSelected true (Some (FdPhi rawPhi phiEncrypted)) ;;
    setAliceState (a_with_phi_text phiEncrypted (T_SendingEncPhi phiEncrypted)) ;;
    sendQuantum (C_Phi phiEncrypted) (pulseInterval * 2) ;;
    setBobState (b_with_phi_text phiEncrypted (T_ReceivedEncPhi phiEncrypted)) ;;
    addLog (L_PhiDelivered phiEncrypted) ;;
    updateStatus T_InitComplete true None ;;
    setAliceState (a_with_text T_InitComplete) ;;
    setBobState (b_with_text T_InitCompleteBob) ;;
    setNoiseLocked false ;;
    setQkdRunning false ;;
    setQkdDone true ;;
    ret Complete
  else
    updateStatus T_InitCompleteTamper true None ;;
    setAliceState (a_with_text T_FinishedWithheld) ;;
    setBobState (b_with_text T_FinishedWithheld) ;;
    setNoiseLocked false ;;
    setQkdRunning false ;;
    setQkdDone false ;;
    ret FinishedWithheld.

(** [runInitialization].  [st] is the state the handler was created in:
    its closure reads [qkdRunning], [tampering] and the parameters from
    there. *)
Definition runInitialization : M Exit :=
  fun w0 =>
    let st := app w0 in
    if qkdRunning st then (Rejected, w0)
    else
      (init_reset ;;
       let noise := param_noise st in
       let N := param_N st in
       let pulseInterval := param_pulseInterval st in
       let sampleSize := param_sampleSize st in
       let tamper := tampering st in
       a <- step1 N ;;
       let aliceBits := fst a in
       let aliceBases := snd a in
       m <- step2 noise tamper pulseInterval N aliceBits aliceBases ;;
       step3 pulseInterval N (bobBases m) ;;
       kept <- step4 pulseInterval N aliceBits aliceBases (bobBases m)
                 (bobResults m) ;;
       r <- step5 tamper pulseInterval N sampleSize (sf_indices kept)
              aliceBits (bobResults m) (tamperIntroducedCount m) ;;
       match r with
       | Some e => ret e
       | None =>
           step6 pulseInterval (sf_aliceBits kept) ;;
           step7 N (sf_aliceBits kept) ;;
           phi_exchange tamper pulseInterval
       end) w0.

(** ** The signature round *)

Inductive SignExit : Type :=
| SignRejected
| SignTamperDetected
| SignAccepted.

(** [signAndSend]. *)
Definition signAndSend : M SignExit :=
  fun w0 =>
    let st := app w0 in
    if negb (qkdDone st) || qkdRunning st || signRunning st
    then (SignRejected, w0)
    else
      (setSignRunning true ;;
       preimage <- random ;;
       updateStatus T_ConvertingP true (Some (FdPreP preimage)) ;;
       setAliceState (a_with_text T_ComputingSDots) ;;
       updateStatus T_ComputingS true None ;;
       addLog L_ComputedS ;;
       setAliceState (a_with_text T_ComputedSSending) ;;
       sendQuantum (C_Label "|P⟩") 2500 ;;
       addLog L_SentP ;;
       sendQuantum (C_Label "|S⟩") 2500 ;;
       addLog L_SentS ;;
       sendQuantum (C_Label "|ID⟩") 2500 ;;
       addLog L_SentID ;;
       setBobState (b_with_text T_ReceivedP) ;;
       setBobState (b_with_text T_ReceivedSID) ;;
       updateStatus T_BobComputes true None ;;
       setBobState (b_with_text T_Decrypting) ;;
       if tampering st then
         setBobState (b_with_text T_VerifFailed) ;;
         setAliceState (a_with_text T_SigSentTamper) ;;
         addLog L_TamperQIBS ;;
         updateStatus T_TamperDuringQIBS true None ;;
         setSignRunning false ;;
         ret SignTamperDetected
       else
         setBobState (b_with_text T_VerifComplete) ;;
         setAliceState (a_with_text T_SigSentAwaiting) ;;
         updateStatus T_SigAccepted true None ;;
         addLog L_BobMatches ;;
         setSignRunning false ;;
         ret SignAccepted) w0.

(** [handleTamperClick]. *)
Definition handleTamperClick : M unit :=
  fun w0 =>
    let st := app w0 in
    if negb (running st) || tampering st || qkdRunning st || signRunning st
    then (tt, w0)
    else
      (setTampering true ;;
       updateStatus T_Eavesdropping true None ;;
       addLog L_TamperEngaged) w0.

End Engine.

(** ** The screens around the two handlers *)

(** The state variables as [useState] initialises them, before any
    [Channel] is mounted. *)
Definition initialApp : App :=
  mkApp false false false None None None (1 # 10) false
        (mkAlice [] [] T_Idle true "") (mkBob [] [] T_Idle true "")
        (mkSifted [] [] []) [] None None 5 1000 2 false false
        T_NotStarted [].

(** The two buttons of the main menu; the simulation view they open
    mounts both channels. *)
Definition startSimulation (mode : ChannelMode) (st : App) : App :=
  with_classicalCh (Some [])
    (with_quantumCh (Some [])
      (with_tampering false
        (with_running true
          (with_noiseIndex (match mode with Perfect => 0 | Noisy => 1 # 10 end)%Q
            (with_channelMode (Some mode) st))))).

(** A random source that replays a list of draws, then returns [0]. *)
Definition replay (draws : list Q) : nat -> Q := fun k => nth k draws 0%Q.

(** ** The measurement model of the specification *)

(** [u < t] for a draw [u], by the order of the rationals. *)
Definition below (u t : Q) : bool := if Qlt_le_dec u t then true else false.

(** A uniform bit and a uniform basis made from one draw: the first value
    when the draw is below one half. *)
Definition uniform_bit (u : Q) : Z := if below u (1 # 2) then 0 else 1.
Definition uniform_basis (u : Q) : Basis := if below u (1 # 2) then BZ else BX.

Definition Basis_eq_dec (a b : Basis) : {a = b} + {a <> b}.
Proof. decide equality. Defined.

(** The raw outcome: noise dominates when the noise draw is below the
    noise level, and the outcome is then a fresh bit; otherwise it is
    Alice's bit when the bases are equal and a fresh bit when they are
    not. *)
Definition layered_raw (noise noiseDraw : Q) (sameBasis : bool)
    (aliceBit fresh : Z) : Z :=
  if below noiseDraw noise then fresh
  else if sameBasis then aliceBit else fresh.

(** The tamper layer, applied after the raw outcome and only when
    tampering is on: with a coin below one half the outcome is flipped and
    the flip counter incremented. *)
Definition layered_tamper (tamper : bool) (coin : Q) (y : Z) (count : nat)
    : Z * nat :=
  if tamper && below coin (1 # 2) then (1 - y, S count) else (y, count).

(** What the model says of one pulse: Bob's basis, the raw outcome, the
    outcome after the tamper layer, whether it was flipped, and the first
    draw that the pulse leaves unread. *)
Record Pulse : Type := mkPulse {
  p_basis : Basis;
  p_raw : Z;
  p_outcome : Z;
  p_flipped : bool;
  p_next : nat
}.

(** The model applied to the sequence of draws from draw [s] on.  Draw
    [s] gives Bob's basis; [idDraws] draws are then spent on showing the
    pulse (the identifier of its packet, when the quantum channel is
    mounted); the next draw is the noise draw; one more draw makes the
    fresh bit, only when the outcome is a fresh bit; and, only under
    tampering, one more draw is the tamper coin.  No draw is read twice. *)
Definition spec_pulse (rnd : nat -> Q) (noise : Q) (tamper : bool)
    (idDraws : nat) (aliceBit : Z) (aliceBasis : Basis) (s : nat) : Pulse :=
  let bB := uniform_basis (rnd s) in
  let c := (idDraws + S s)%nat in
  let same := if Basis_eq_dec bB aliceBasis then true else false in
  let raw := layered_raw noise (rnd c) same aliceBit (uniform_bit (rnd (S c))) in
  let c1 := if below (rnd c) noise || negb same then S (S c) else S c in
  let out := layered_tamper tamper (rnd c1) raw 0 in
  mkPulse bB raw (fst out) (Nat.eqb (snd out) 1) (if tamper then S c1 else c1).

(** The pulses [i .. i + n - 1], the first one starting at draw [s], each
    starting where the one before it ends. *)
Fixpoint spec_pulses (rnd : nat -> Q) (noise : Q) (tamper : bool)
    (idDraws : nat) (aliceBits : list Z) (aliceBases : list Basis)
    (n i s : nat) : list Pulse :=
  match n with
  | O => []
  | S n' =>
      let p := spec_pulse rnd noise tamper idDraws
                 (nth i aliceBits 0) (nth i aliceBases BZ) s in
      p :: spec_pulses rnd noise tamper idDraws aliceBits aliceBases
             n' (S i) (p_next p)
  end.

(** The first draw a sequence of pulses starting at draw [s] leaves
    unread, and the number of pulses it flipped. *)
Definition trace_end (s : nat) (tr : list Pulse) : nat :=
  fold_left (fun _ p => p_next p) tr s.

Definition flips (tr : list Pulse) : nat :=
  List.length (filter p_flipped tr).

(** Alice's preparation in the model: bit [i] is made from draw [k + 2 i]
    and basis [i] from the draw after it. *)
Definition spec_aliceBits (rnd : nat -> Q) (k N : nat) : list Z :=
  map (fun i => uniform_bit (rnd (k + 2 * i)%nat)) (seq 0 N).

Definition spec_aliceBases (rnd : nat -> Q) (k N : nat) : list Basis :=
  map (fun i => uniform_basis (rnd (S (k + 2 * i))%nat)) (seq 0 N).

(** [1] when a channel is mounted: the draws one packet costs. *)
Definition draws_per_packet {A : Type} (ch : option A) : nat :=
  match ch with Some _ => 1%nat | None => 0%nat end.

(** ** Observations *)

(** The two fields of the specification's signature session, read off
    the path a call of [signAndSend] took: the call that returns inside
    [if (tampering)] reports a failed verification, the call that runs to
    the end reports an accepted signature, a rejected call reports
    nothing. *)
Definition session_verified (e : SignExit) : option bool :=
  match e with
  | SignAccepted => Some true
  | SignTamperDetected => Some false
  | SignRejected => None
  end.

Definition session_tamperDetected (e : SignExit) : bool :=
  match e with
  | SignTamperDetected => true
  | _ => false
  end.

(** The packet [EC (simulated)] that step 6 puts on the classical
    channel. *)
Definition sent_EC (p : Packet) : bool :=
  match pkt_content p with
  | C_EC => true
  | _ => false
  end.



(** ** Concrete scenarios *)

Definition lo : Q := 1 # 4.
Definition hi : Q := 3 # 4.

(** Scenario A of the specification: [N = 4], perfect channel, Alice's
    bits [0,1,1,0] in bases [Z,X,Z,X], Bob's bases [Z,Z,X,X].  Per pulse
    Bob's draws are: basis, packet identifier, noise test and, when the
    bases differ, the outcome. *)
Definition stateA : App := with_qkdN 4 (startSimulation Perfect initialApp).
Definition drawsA : list Q :=
  ([lo; lo; hi; hi; hi; lo; lo; hi] ++
  [lo; 0; 0] ++ [lo; 0; 0; hi] ++ [hi; 0; 0; lo] ++ [hi; 0; 0])%Q.

(** Scenario B: the same with the tamper button pressed before the run
    and every tamper coin below one half. *)
Definition stateB : App := app (snd (handleTamperClick (mkWorld stateA 0))).
Definition drawsB : list Q :=
  ([lo; lo; hi; hi; hi; lo; lo; hi] ++
  [lo; 0; 0; lo] ++ [lo; 0; 0; hi; lo] ++ [hi; 0; 0; lo; lo] ++ [hi; 0; 0; lo])%Q.

(** Tampering on, one qubit, Bob measures in the other basis: nothing is
    sifted. *)
Definition stateT1 : App := with_qkdN 1 stateB.
Definition drawsT1 : list Q :=
  ([lo; lo] ++ [hi; 0; 0; lo; hi])%Q.

(** Noisy channel, one qubit, equal bases, noise replaces the outcome by
    the opposite bit; the sample size is the default 2. *)
Definition stateN1 : App := with_qkdN 1 (startSimulation Noisy initialApp).
Definition drawsN1 : list Q :=
  ([lo; lo] ++ [lo; 0; 0; hi])%Q.

(** Noisy channel, three qubits, sample size 3, all bases equal; noise
    replaces the first outcome by the opposite bit, so one of the three
    revealed pairs disagrees. *)
Definition stateN3 : App :=
  with_qberSampleSize 3 (with_qkdN 3 (startSimulation Noisy initialApp)).
Definition drawsN3 : list Q :=
  ([lo; lo; lo; lo; lo; lo] ++ [lo; 0; 0; hi] ++ [lo; 0; hi] ++ [lo; 0; hi])%Q.

(** Scenario A continued: the seven packets of the classical channel,
    then eight draws for the key. *)
Definition drawsK : list Q :=
  (drawsA ++ [0; 0; 0; 0; 0; 0; 0] ++ [hi; lo; hi; hi; lo; lo; hi; lo])%Q.

(** A state in which a run is in flight. *)
Definition stateBusy : App := with_qkdRunning true stateA.

(** ** Auxiliary notions *)

(** The state with Bob's panel and the quantum channel blanked. *)
Definition blank_bob_quantum (a : App) : App :=
  with_bobState (mkBob [] [] T_Idle true "") (with_quantumCh None a).

(** * Properties *)

(** ** Small facts about the data *)

Lemma basis_eqb_eq (a b : Basis) : basis_eqb a b = true <-> a = b.
Proof. destruct a, b; simpl; split; congruence. Qed.

Lemma bit_at_nth_error (a : list Z) (i : nat) :
  (i < List.length a)%nat -> nth_error a i = Some (bit_at a i).
Proof. intros H. unfold bit_at. now apply nth_error_nth'. Qed.

Lemma basis_at_nth_error (a : list Basis) (i : nat) :
  (i < List.length a)%nat -> nth_error a i = Some (basis_at a i).
Proof. intros H. unfold basis_at. now apply nth_error_nth'. Qed.

(** ** Sifting *)

Section Sifting.

Variables (aliceBases bobBases : list Basis) (aliceBits bobResults : list Z).

Lemma sift_from_spec (n i : nat) (acc : Sifted) :
  let kept := filter (bases_match aliceBases bobBases) (seq i n) in
  sift_from n i aliceBases bobBases aliceBits bobResults acc =
  mkSifted (sf_indices acc ++ kept)
           (sf_aliceBits acc ++ map (bit_at aliceBits) kept)
           (sf_bobBits acc ++ map (bit_at bobResults) kept).
Proof.
  revert i acc. induction n as [|n IH]; intros i acc; simpl.
  - destruct acc; simpl. now rewrite !app_nil_r.
  - rewrite IH. unfold sift_step.
    destruct (bases_match aliceBases bobBases i); simpl.
    + now rewrite <- !app_assoc.
    + reflexivity.
Qed.

Lemma sift_spec (N : nat) :
  sift N aliceBases bobBases aliceBits bobResults =
  let kept := filter (bases_match aliceBases bobBases) (seq 0 N) in
  mkSifted kept (map (bit_at aliceBits) kept) (map (bit_at bobResults) kept).
Proof. unfold sift. now rewrite sift_from_spec. Qed.

Lemma filter_seq_sorted (f : nat -> bool) (n i : nat) :
  StronglySorted lt (filter f (seq i n)).
Proof.
  revert i. induction n as [|n IH]; intros i; simpl.
  - constructor.
  - destruct (f i); [|apply IH].
    constructor; [apply IH|].
    apply Forall_forall. intros x Hx.
    apply filter_In in Hx. destruct Hx as [Hx _].
    apply in_seq in Hx. lia.
Qed.

Lemma sift_length_aliceBits (N : nat) :
  List.length (sf_aliceBits (sift N aliceBases bobBases aliceBits bobResults)) =
  List.length (sf_indices (sift N aliceBases bobBases aliceBits bobResults)).
Proof. rewrite sift_spec. simpl. now rewrite length_map. Qed.

Lemma sift_length_le (N : nat) :
  (List.length (sf_indices (sift N aliceBases bobBases aliceBits bobResults))
   <= N)%nat.
Proof.
  rewrite sift_spec. simpl.
  etransitivity; [apply filter_length_le|]. now rewrite length_seq.
Qed.

End Sifting.

(** C2.  For [N >= 1] and arrays of [N] elements, the sifting loop keeps
    exactly the indices below [N] at which Alice's and Bob's bases are
    equal, in increasing order, and the entry kept for index [i] carries
    [aliceBits[i]] and [bobResults[i]].  [sift] is a total function of
    the four arrays: it reads no random draw and has no failure value. *)
Theorem sift_keeps_matching_bases
    (N : nat) (aliceBases bobBases : list Basis) (aliceBits bobResults : list Z) :
  (1 <= N)%nat ->
  List.length aliceBases = N -> List.length bobBases = N ->
  List.length aliceBits = N -> List.length bobResults = N ->
  let s := sift N aliceBases bobBases aliceBits bobResults in
  (forall i, In i (sf_indices s) <->
             (i < N)%nat /\ nth_error aliceBases i = nth_error bobBases i)
  /\ StronglySorted lt (sf_indices s)
  /\ List.length (sf_aliceBits s) = List.length (sf_indices s)
  /\ List.length (sf_bobBits s) = List.length (sf_indices s)
  /\ (forall j i, nth_error (sf_indices s) j = Some i ->
        nth_error (sf_aliceBits s) j = nth_error aliceBits i
        /\ nth_error (sf_bobBits s) j = nth_error bobResults i).
Proof.
  intros HN Ha Hb Hx Hy s. subst s. rewrite sift_spec. simpl.
  assert (Hin : forall i, In i (filter (bases_match aliceBases bobBases) (seq 0 N))
                  <-> (i < N)%nat /\ nth_error aliceBases i = nth_error bobBases i).
  { intros i. rewrite filter_In, in_seq. unfold bases_match.
    rewrite basis_eqb_eq. split.
    - intros [Hi E]. split; [lia|].
      rewrite !basis_at_nth_error by lia. now rewrite E.
    - intros [Hi E]. split; [lia|].
      rewrite !basis_at_nth_error in E by lia. congruence. }
  split; [exact Hin|].
  split; [apply filter_seq_sorted|].
  split; [now rewrite length_map|].
  split; [now rewrite length_map|].
  intros j i Hj.
  assert (Hi : (i < N)%nat) by (apply Hin; eapply nth_error_In; eauto).
  rewrite !nth_error_map, Hj. simpl.
  now rewrite !bit_at_nth_error by lia.
Qed.

(** The arrays of Scenario A of the specification. *)
Lemma sift_keeps_matching_bases_witness :
  let s := sift 4 [BZ; BX; BZ; BX] [BZ; BZ; BX; BX] [0; 1; 1; 0] [0; 1; 0; 0] in
  (forall i, In i (sf_indices s) <->
             (i < 4)%nat /\
             nth_error [BZ; BX; BZ; BX] i = nth_error [BZ; BZ; BX; BX] i)
  /\ StronglySorted lt (sf_indices s)
  /\ List.length (sf_aliceBits s) = List.length (sf_indices s)
  /\ List.length (sf_bobBits s) = List.length (sf_indices s)
  /\ (forall j i, nth_error (sf_indices s) j = Some i ->
        nth_error (sf_aliceBits s) j = nth_error [0; 1; 1; 0] i
        /\ nth_error (sf_bobBits s) j = nth_error [0; 1; 0; 0] i).
Proof.
  apply (@sift_keeps_matching_bases 4 [BZ; BX; BZ; BX] [BZ; BZ; BX; BX]
           [0; 1; 1; 0] [0; 1; 0; 0]); [lia | reflexivity ..].
Defined.

(** ** Loops and the random source *)

Lemma for_loop_inv {S : Type} (P : nat -> S -> World -> Prop)
    (body : nat -> S -> M S) :
  (forall i s w, P i s w ->
     P (Datatypes.S i) (fst (body i s w)) (snd (body i s w))) ->
  forall n i s w, P i s w ->
    P (n + i)%nat (fst (for_loop n i body s w)) (snd (for_loop n i body s w)).
Proof.
  intros Hbody. induction n as [|n IH]; intros i s w HP; simpl.
  - exact HP.
  - unfold bind. specialize (Hbody i s w HP).
    destruct (body i s w) as [s' w']. simpl in Hbody.
    rewrite <- Nat.add_succ_r. now apply IH.
Qed.

Section Loops.

Variable rnd : nat -> Q.

Lemma prepare_spec (N : nat) (w : World) :
  app (snd (prepare rnd N w)) = app w
  /\ cursor (snd (prepare rnd N w)) = (2 * N + cursor w)%nat
  /\ List.length (fst (fst (prepare rnd N w))) = N
  /\ List.length (snd (fst (prepare rnd N w))) = N.
Proof.
  unfold prepare.
  set (P := fun (i : nat) (acc : list Z * list Basis) (w' : World) =>
              app w' = app w /\ cursor w' = (2 * i + cursor w)%nat
              /\ List.length (fst acc) = i /\ List.length (snd acc) = i).
  assert (Hbody : forall i s w', P i s w' ->
            P (S i) (fst (prepare_body rnd i s w'))
                    (snd (prepare_body rnd i s w'))).
  { intros i s w' (Ha & Hc & H1 & H2). unfold P. simpl.
    rewrite !length_app, H1, H2, Ha, Hc. simpl. repeat split; lia. }
  pose proof (for_loop_inv P _ Hbody N 0%nat ([], []) w) as H.
  rewrite Nat.add_0_r in H. apply H. unfold P. simpl. auto.
Qed.

(** The bits drawn by [random_bits] are the images of consecutive draws. *)
Lemma random_bits_spec (n : nat) (w : World) :
  random_bits rnd n w =
  (fresh_bits rnd (cursor w) n, mkWorld (app w) (n + cursor w)).
Proof.
  unfold random_bits.
  set (P := fun (i : nat) (acc : list Z) (w' : World) =>
              acc = fresh_bits rnd (cursor w) i
              /\ w' = mkWorld (app w) (i + cursor w)).
  set (body := fun (_ : nat) (acc : list Z) =>
                 b <- randBit rnd ;; ret (acc ++ [b])).
  assert (Hbody : forall i s w', P i s w' ->
            P (S i) (fst (body i s w')) (snd (body i s w'))).
  { intros i s w' [-> ->]. unfold P. simpl. split; [|reflexivity].
    unfold fresh_bits. rewrite seq_S, map_app. simpl.
    now rewrite (Nat.add_comm i). }
  pose proof (for_loop_inv P _ Hbody n 0%nat [] w) as H.
  rewrite Nat.add_0_r in H.
  destruct H as [H1 H2]; [destruct w; now split|].
  rewrite (surjective_pairing (for_loop n 0 body [] w)).
  now rewrite H1, H2.
Qed.

End Loops.

(** ** One measurement *)

Section Measurement.

Variable rnd : nat -> Q.

(** The value and the final world of one measurement, path by path. *)
Lemma measure_outcome_eq
    (noise : Q) (tamper : bool) (aliceBits : list Z) (aliceBases : list Basis)
    (i : nat) (bB : Basis) (count : nat) (w : World) :
  let c := cursor w in
  let noisy := Qltb (rnd c) noise in
  let same := basis_eqb bB (basis_at aliceBases i) in
  let fresh := bit_of_draw (rnd (S c)) in
  let raw := if noisy then fresh else if same then bit_at aliceBits i else fresh in
  let c1 := if noisy || negb same then S (S c) else S c in
  let flip := tamper && Qltb (rnd c1) (1 # 2) in
  measure_outcome rnd noise tamper aliceBits aliceBases i bB count w =
  ((if flip then 1 - raw else raw, if flip then S count else count),
   mkWorld (app w) (if tamper then S c1 else c1)).
Proof.
  cbv zeta. unfold measure_outcome, bind, random, randBit, ret. simpl.
  destruct (Qltb (rnd (cursor w)) noise); simpl.
  - destruct tamper; simpl; [|reflexivity].
    now destruct (Qltb (rnd (S (S (cursor w)))) (1 # 2)).
  - destruct (basis_eqb bB (basis_at aliceBases i)); simpl.
    + destruct tamper; simpl; [|reflexivity].
      now destruct (Qltb (rnd (S (cursor w))) (1 # 2)).
    + destruct tamper; simpl; [|reflexivity].
      now destruct (Qltb (rnd (S (S (cursor w)))) (1 # 2)).
Qed.

Lemma measure_outcome_world
    (noise : Q) (tamper : bool) (aliceBits : list Z) (aliceBases : list Basis)
    (i : nat) (bB : Basis) (count : nat) (w : World) :
  let r := measure_outcome rnd noise tamper aliceBits aliceBases i bB count w in
  app (snd r) = app w
  /\ (cursor w <= cursor (snd r))%nat
  /\ (count <= snd (fst r) <= S count)%nat
  /\ (tamper = false -> snd (fst r) = count).
Proof.
  cbv zeta. rewrite measure_outcome_eq. cbn [fst snd app cursor].
  split; [reflexivity|]. split.
  - destruct tamper, (Qltb _ noise || _); lia.
  - split.
    + destruct (tamper && _); lia.
    + now intros ->.
Qed.

End Measurement.

(** ** The measurement loop *)

Section MeasureLoop.

Variable rnd : nat -> Q.

Lemma with_quantumCh_eta (a : App) : with_quantumCh (quantumCh a) a = a.
Proof. now destruct a. Qed.

(** [sendQuantum] changes the quantum channel and the cursor only. *)
Lemma sendQuantum_frame (content : Content) (duration : Z) (w : World) :
  let w' := snd (sendQuantum rnd content duration w) in
  app w' = with_quantumCh (quantumCh (app w')) (app w)
  /\ (cursor w <= cursor w')%nat.
Proof.
  unfold sendQuantum. destruct (quantumCh (app w)) eqn:E; simpl.
  - split; [reflexivity | lia].
  - split; [|lia]. symmetry. apply with_quantumCh_eta.
Qed.

(** An application state with Bob's panel and the quantum channel blanked:
    two states with the same image differ in those two fields at most. *)
Lemma blank_bob_quantum_inv (a a' : App) :
  blank_bob_quantum a' = blank_bob_quantum a ->
  a' = with_bobState (bobState a') (with_quantumCh (quantumCh a') a).
Proof.
  destruct a, a'. unfold blank_bob_quantum. simpl.
  intros H. injection H as -> -> -> -> -> -> -> -> -> -> -> -> -> -> -> -> -> -> ->.
  reflexivity.
Qed.

Lemma measure_body_spec (noise : Q) (tamper : bool) (pulseInterval : Z)
    (aliceBits : list Z) (aliceBases : list Basis) (i : nat) (m : Meas)
    (w : World) :
  let r := measure_body rnd noise tamper pulseInterval aliceBits aliceBases i m w in
  let B := bobState (app w) in
  let B' := bobState (app (snd r)) in
  blank_bob_quantum (app (snd r)) = blank_bob_quantum (app w)
  /\ (cursor w <= cursor (snd r))%nat
  /\ (exists bB y,
        bobBases (fst r) = bobBases m ++ [bB]
        /\ bobResults (fst r) = bobResults m ++ [y]
        /\ b_bases B' = b_bases B ++ [bB]
        /\ b_results B' = b_results B ++ [y])
  /\ b_phi B' = b_phi B
  /\ (tamperIntroducedCount m <= tamperIntroducedCount (fst r)
      <= S (tamperIntroducedCount m))%nat
  /\ (tamper = false ->
      tamperIntroducedCount (fst r) = tamperIntroducedCount m).
Proof.
  unfold measure_body, bind, setBobState, modify, ret.
  change (randBasis rnd w)
    with (basis_of_draw (rnd (cursor w)), mkWorld (app w) (S (cursor w))).
  cbv beta iota.
  set (bB := basis_of_draw (rnd (cursor w))).
  cbn [app cursor].
  match goal with
  | |- context [sendQuantum rnd ?c ?d ?w1] =>
      pose proof (sendQuantum_frame c d w1) as [F2 C2];
      destruct (sendQuantum rnd c d w1) as [[] w2]
  end.
  cbn [snd app cursor] in F2, C2.
  pose proof (measure_outcome_world rnd noise tamper aliceBits aliceBases i bB
                (tamperIntroducedCount m) w2) as (F3 & C3 & K3 & T3).
  destruct (measure_outcome rnd noise tamper aliceBits aliceBases i bB
              (tamperIntroducedCount m) w2) as [[y cnt] w3].
  cbn [fst snd] in F3, C3, K3, T3.
  cbn [fst snd app cursor bobBases bobResults tamperIntroducedCount].
  rewrite F3, F2. cbn.
  split; [reflexivity|]. split; [lia|].
  split; [now exists bB, y|]. auto.
Qed.
Lemma measure_spec (noise : Q) (tamper : bool) (pulseInterval : Z) (N : nat)
    (aliceBits : list Z) (aliceBases : list Basis) (w : World) :
  let r := measure rnd noise tamper pulseInterval N aliceBits aliceBases w in
  let B := bobState (app w) in
  let B' := bobState (app (snd r)) in
  blank_bob_quantum (app (snd r)) = blank_bob_quantum (app w)
  /\ (cursor w <= cursor (snd r))%nat
  /\ b_bases B' = b_bases B ++ bobBases (fst r)
  /\ b_results B' = b_results B ++ bobResults (fst r)
  /\ b_phi B' = b_phi B
  /\ List.length (bobBases (fst r)) = N
  /\ List.length (bobResults (fst r)) = N
  /\ (tamperIntroducedCount (fst r) <= N)%nat
  /\ (tamper = false -> tamperIntroducedCount (fst r) = 0%nat).
Proof.
  unfold measure.
  set (body := measure_body rnd noise tamper pulseInterval aliceBits aliceBases).
  set (P := fun (i : nat) (m : Meas) (w' : World) =>
    blank_bob_quantum (app w') = blank_bob_quantum (app w)
    /\ (cursor w <= cursor w')%nat
    /\ b_bases (bobState (app w')) = b_bases (bobState (app w)) ++ bobBases m
    /\ b_results (bobState (app w')) = b_results (bobState (app w)) ++ bobResults m
    /\ b_phi (bobState (app w')) = b_phi (bobState (app w))
    /\ List.length (bobBases m) = i
    /\ List.length (bobResults m) = i
    /\ (tamperIntroducedCount m <= i)%nat
    /\ (tamper = false -> tamperIntroducedCount m = 0%nat)).
  assert (Hbody : forall i s w', P i s w' ->
            P (S i) (fst (body i s w')) (snd (body i s w'))).
  { intros i s w' (F & C & Hb & Hr & Hp & Lb & Lr & K & T).
    destruct (measure_body_spec noise tamper pulseInterval aliceBits aliceBases
                i s w') as (F' & C' & (bB & y & E1 & E2 & E3 & E4) & Hp' & K' & T').
    fold body in F', C', E1, E2, E3, E4, Hp', K', T'.
    unfold P. rewrite F', E1, E2, E3, E4, Hp', Hb, Hr, !length_app, Lb, Lr.
    simpl. rewrite <- !app_assoc.
    repeat split; try assumption; try lia.
    intros Ht. rewrite (T' Ht). auto. }
  pose proof (for_loop_inv P _ Hbody N 0%nat (mkMeas [] [] 0) w) as H.
  rewrite Nat.add_0_r in H. apply H. unfold P. simpl.
  rewrite !app_nil_r. repeat split; auto.
Qed.

End MeasureLoop.

(** ** Strings and prefixes *)

Lemma string_length_app (s t : string) :
  String.length (s ++ t) = (String.length s + String.length t)%nat.
Proof. induction s as [|c s IH]; simpl; [reflexivity | now rewrite IH]. Qed.

Lemma join_bits_length (bits : list Z) :
  String.length (join_bits bits) = List.length bits.
Proof.
  unfold join_bits. induction bits as [|b bits IH]; [reflexivity|].
  assert (Hb : String.length (show_bit b) = 1%nat)
    by (unfold show_bit; now destruct (b =? 0)).
  destruct bits as [|b' bits]; [exact Hb|].
  change (String.length (show_bit b ++ "" ++ String.concat "" (map show_bit (b' :: bits)))
          = S (List.length (b' :: bits))).
  rewrite string_length_app, Hb. cbn [String.append]. now rewrite IH.
Qed.

Lemma fresh_bits_length (rnd : nat -> Q) (c n : nat) :
  List.length (fresh_bits rnd c n) = n.
Proof. unfold fresh_bits. now rewrite length_map, length_seq. Qed.




Lemma empty_sample (l : list SampleEntry) :
  (0 <? List.length l)%nat = false -> l = [].
Proof. destruct l; [reflexivity | discriminate]. Qed.

Lemma nonempty_sample (l : list SampleEntry) :
  (0 <? List.length l)%nat = true -> l <> [].
Proof. destruct l; [discriminate | congruence]. Qed.



(** ** A run of the protocol, end to end *)

(** Symbolic evaluation of the straight-line parts of a handler. *)
Ltac run_eval H :=
  cbv beta iota zeta delta
    [bind ret modify
     setQkdRunning setQkdDone setSharedKey setLogs setNoiseLocked setSifted
     setRevealedSample setQber setCurrentStatus setTampering setSignRunning
     setAliceState setBobState setSiftedPrev updateStatus addLog
     init_reset step1 step2 step3 step4 step5 step6 step7 phi_exchange
     abort_eavesdrop abort_high_qber sendClassical sendQuantum sendPacket
     random phi_char
     with_running with_qkdRunning with_qkdDone with_classicalCh with_quantumCh
     with_channelMode with_noiseIndex with_noiseLocked with_aliceState
     with_bobState with_sifted with_revealedSample with_qber with_sharedKey
     with_qkdN with_pulseIntervalMs with_qberSampleSize with_tampering
     with_signRunning with_currentStatus with_logs
     running qkdRunning qkdDone classicalCh quantumCh channelMode noiseIndex
     noiseLocked aliceState bobState sifted revealedSample qber sharedKey
     qkdN pulseIntervalMs qberSampleSize tampering signRunning currentStatus
     logs
     a_with_text a_with_bits_bases a_with_phi_text b_with_text
     b_with_bases_text b_with_results_text b_with_phi_text sifted_with_bobBits
     a_bits a_bases a_text a_memoryVisible a_phi
     b_bases b_results b_text b_memoryVisible b_phi
     app cursor fst snd negb orb] in H.

(** What a call that passes the guard leaves behind, in terms of the
    arrays it shows in the two panels.  Either tampering is on and the
    sample is not empty, and the call returns from step 5; or it runs to
    the end. *)
Lemma run_outcome (rnd : nat -> Q) (st : App) (k : nat) :
  qkdRunning st = false ->
  let r := runInitialization rnd (mkWorld st k) in
  let f := app (snd r) in
  let N := param_N st in
  let A := aliceState f in
  let B := bobState f in
  let kept := sift N (a_bases A) (b_bases B) (a_bits A) (b_results B) in
  let smp := sample (param_sampleSize st) (sf_indices kept)
                    (a_bits A) (b_results B) in
  let L := desiredLen N (sf_aliceBits kept) in
  List.length (a_bits A) = N /\ List.length (a_bases A) = N
  /\ List.length (b_bases B) = N /\ List.length (b_results B) = N
  /\ revealedSample f = smp
  /\ qber f = Some (sample_qber smp)
  /\ tampering f = tampering st
  /\ qkdRunning f = false
  /\ ((tampering st = true /\ smp <> []
       /\ fst r = (if PrimFloat.leb (sample_qber smp) 0.45%float
                   then AbortEavesdrop else AbortHighQber)
       /\ currentStatus f = (if PrimFloat.leb (sample_qber smp) 0.45%float
                             then T_EavesdropAbort else T_HighQberAbort)
       /\ sifted f = kept
       /\ sharedKey f = None /\ qkdDone f = false
       /\ a_phi A = "" /\ b_phi B = ""
       /\ (forall p0, classicalCh st = Some p0 ->
           exists new, classicalCh f = Some (p0 ++ new)
                       /\ existsb sent_EC new = false))
      \/ ((tampering st = false \/ smp = [])
          /\ fst r = (if tampering st then FinishedWithheld else Complete)
          /\ currentStatus f = (if tampering st then T_InitCompleteTamper
                                else T_InitComplete)
          /\ sifted f = sifted_with_bobBits (sf_aliceBits kept) kept
          /\ (exists c, (k <= c)%nat /\ (c + L <= cursor (snd r))%nat
                /\ sharedKey f = Some (join_bits (fresh_bits rnd c L)))
          /\ qkdDone f = negb (tampering st)
          /\ (tampering st = true -> a_phi A = "" /\ b_phi B = "")
          /\ (forall p0, classicalCh st = Some p0 ->
              exists new, classicalCh f = Some (p0 ++ new)
                          /\ existsb sent_EC new = true))).
Proof.
  intros Hq r.
  assert (Er : r = runInitialization rnd (mkWorld st k)) by reflexivity.
  clearbody r.
  unfold runInitialization in Er. cbn [app] in Er. rewrite Hq in Er.
  set (N := param_N st) in *. set (SS := param_sampleSize st) in *.
  set (PI := param_pulseInterval st) in *. set (NO := param_noise st) in *.
  set (tm := tampering st) in *.
  assert (Etm : tampering st = tm) by reflexivity.
  clearbody N SS PI NO tm.
  destruct st as [rn qr qd cc qc cm ni nl al bo sf rs qb sk qn pi qs tm' sr cs lg].
  cbn [tampering] in Etm. subst tm'. clear Hq.
  run_eval Er.
  (* step 1: the preparation loop *)
  match type of Er with
  | context [prepare rnd N ?w] =>
      pose proof (prepare_spec rnd N w) as (F1 & C1 & La & Lb);
      destruct (prepare rnd N w) as [[aBits aBases] [a1 c1]]
  end.
  cbn [fst snd app cursor] in F1, C1, La, Lb. subst a1.
  run_eval Er.
  (* step 2: the measurement loop *)
  match type of Er with
  | context [measure rnd NO tm PI N aBits aBases ?w] =>
      pose proof (measure_spec rnd NO tm PI N aBits aBases w)
        as (F2 & C2 & Bb & Br & Bp & Lbb & Lbr & _ & _);
      destruct (measure rnd NO tm PI N aBits aBases w) as [m [a2 c2]]
  end.
  cbn [fst snd app cursor] in F2, C2, Bb, Br, Bp, Lbb, Lbr.
  apply blank_bob_quantum_inv in F2.
  destruct (bobState a2) as [bb br bt bm bp] eqn:EB.
  cbn in Bb, Br, Bp. subst bb br bp.
  set (Q2 := quantumCh a2) in *. clearbody Q2. clear EB. subst a2.
  (* steps 3 to 5, by cases on the classical channel, the sample, the
     tamper flag and the test on the error rate *)
  destruct cc as [cpk|]; run_eval Er.
  all: match type of Er with
       | context [(0 <? ?n)%nat] => destruct (0 <? n)%nat eqn:Es
       end.
  all: destruct tm; run_eval Er.
  all: try match type of Er with
       | context [PrimFloat.leb ?q ?t] => destruct (PrimFloat.leb q t) eqn:Eq
       end.
  all: run_eval Er.
  (* steps 6 and 7 and the exchange of phi *)
  all: try rewrite random_bits_spec in Er.
  all: run_eval Er.
  all: try (destruct Q2 as [qpk|]; run_eval Er).
  all: subst r; cbn [fst snd app cursor aliceState bobState a_bits a_bases
                     b_bases b_results a_phi b_phi revealedSample qber
                     tampering qkdRunning sifted sharedKey qkdDone
                     currentStatus classicalCh].
  all: try (apply empty_sample in Es; rewrite Es).
  all: do 4 (split; [assumption|]).
  all: do 4 (split; [reflexivity|]).
  all: first
    [ left; split; [reflexivity|]; split; [now apply nonempty_sample|];
      split; [now rewrite Eq|]; split; [now rewrite Eq|];
      do 5 (split; [reflexivity|])
    | right; split; [solve [now left | now right]|];
      do 3 (split; [reflexivity|]);
      split; [eexists; split; [|split; [|reflexivity]]; lia|];
      split; [reflexivity|];
      split; [intros ?; (discriminate || now split)|] ].
  all: intros p0 Hp0; try discriminate Hp0.
  all: injection Hp0 as <-.
  all: eexists; split; [rewrite <- ?app_assoc; reflexivity | reflexivity].
Qed.

Lemma sample_length (sampleSize : nat) (keepIndices : list nat)
    (aliceBits bobResults : list Z) :
  List.length (sample sampleSize keepIndices aliceBits bobResults) =
  Nat.min sampleSize (List.length keepIndices).
Proof. unfold sample. now rewrite length_map, length_firstn. Qed.

Lemma desiredLen_sift (N : nat) (aliceBases bobBases : list Basis)
    (aliceBits bobResults : list Z) :
  let s := sift N aliceBases bobBases aliceBits bobResults in
  desiredLen N (sf_aliceBits s) =
  Nat.max (2 * N) (List.length (sf_indices s)).
Proof.
  cbv zeta. unfold desiredLen.
  now rewrite Nat.max_0_l, sift_length_aliceBits.
Qed.

(** ** The abort policy *)




(** C10.  In a call that passes the guard with tampering on, when the
    sample size is 0 or nothing was sifted, the run does not abort: Bob's
    sifted bits are overwritten by Alice's and the packet of the error
    correction goes on the classical channel, [sharedKey] is set to a
    string of [max(2 N, number of sifted pairs)] characters, phi stays
    empty on both sides and the run ends with [qkdDone = false]. *)
Theorem tamper_with_empty_sample_finishes
    (rnd : nat -> Q) (st : App) (k : nat) :
  qkdRunning st = false ->
  tampering st = true ->
  let r := runInitialization rnd (mkWorld st k) in
  let f := app (snd r) in
  let N := param_N st in
  param_sampleSize st = 0%nat \/ sf_indices (sifted f) = [] ->
  fst r = FinishedWithheld
  /\ aborted (fst r) = false
  /\ revealedSample f = []
  /\ sf_bobBits (sifted f) = sf_aliceBits (sifted f)
  /\ (forall p0, classicalCh st = Some p0 ->
      exists new, classicalCh f = Some (p0 ++ new)
                  /\ existsb sent_EC new = true)
  /\ (exists key, sharedKey f = Some key
        /\ String.length key =
           Nat.max (2 * N) (List.length (sf_indices (sifted f))))
  /\ a_phi (aliceState f) = "" /\ b_phi (bobState f) = ""
  /\ currentStatus f = T_InitCompleteTamper
  /\ qkdDone f = false
  /\ qkdRunning f = false.
Proof.
  intros Hq Ht r f N He. subst N f r.
  pose proof (run_outcome rnd st k Hq) as H. cbv zeta in H.
  destruct H as (_ & _ & _ & _ & Es & _ & _ & Hr & Hcases).
  set (r := runInitialization rnd (mkWorld st k)) in *.
  set (f := app (snd r)) in *.
  set (kept := sift (param_N st) _ _ _ _) in *.
  assert (Hidx : sf_indices (sifted f) = sf_indices kept).
  { destruct Hcases as [(_ & _ & _ & _ & -> & _) | (_ & _ & _ & -> & _)];
      reflexivity. }
  assert (Hempty : revealedSample f = []).
  { rewrite Es. unfold sample. destruct He as [-> | He]; [reflexivity|].
    rewrite <- Hidx, He. now rewrite firstn_nil. }
  destruct Hcases
    as [(_ & Hn & _)
       | (_ & Hx & Hst & Hsf & (c & _ & _ & Hk) & Hd & Hphi & Hec)].
  - rewrite <- Es in Hn. contradiction.
  - rewrite Ht in Hx, Hst, Hd. destruct (Hphi Ht) as [Hpa Hpb].
    rewrite Hx, Hsf, Hk. simpl.
    repeat split; try assumption.
    exists (join_bits (fresh_bits rnd c
              (desiredLen (param_N st) (sf_aliceBits kept)))).
    split; [reflexivity|].
    rewrite join_bits_length, fresh_bits_length.
    apply desiredLen_sift.
Qed.

(** One qubit measured in the other basis: nothing is sifted. *)
Lemma tamper_with_empty_sample_finishes_witness :
  let r := runInitialization (replay drawsT1) (mkWorld stateT1 0) in
  let f := app (snd r) in
  let N := param_N stateT1 in
  fst r = FinishedWithheld
  /\ aborted (fst r) = false
  /\ revealedSample f = []
  /\ sf_bobBits (sifted f) = sf_aliceBits (sifted f)
  /\ (forall p0, classicalCh stateT1 = Some p0 ->
      exists new, classicalCh f = Some (p0 ++ new)
                  /\ existsb sent_EC new = true)
  /\ (exists key, sharedKey f = Some key
        /\ String.length key =
           Nat.max (2 * N) (List.length (sf_indices (sifted f))))
  /\ a_phi (aliceState f) = "" /\ b_phi (bobState f) = ""
  /\ currentStatus f = T_InitCompleteTamper
  /\ qkdDone f = false
  /\ qkdRunning f = false.
Proof.
  apply (@tamper_with_empty_sample_finishes (replay drawsT1) stateT1 0);
    [reflexivity | reflexivity | right; reflexivity].
Defined.

(** ** The model of the specification and the code *)

Lemma below_Qltb (u t : Q) : Qltb u t = below u t.
Proof.
  unfold Qltb, below. destruct (Qlt_le_dec u t) as [H | H].
  - destruct (Qle_bool t u) eqn:E; [|reflexivity].
    apply Qle_bool_iff in E. exfalso. exact (Qlt_not_le _ _ H E).
  - now rewrite (proj2 (Qle_bool_iff t u) H).
Qed.

Lemma bit_of_draw_uniform (u : Q) : bit_of_draw u = uniform_bit u.
Proof. unfold bit_of_draw, uniform_bit. now rewrite below_Qltb. Qed.

Lemma basis_of_draw_uniform (u : Q) : basis_of_draw u = uniform_basis u.
Proof. unfold basis_of_draw, uniform_basis. now rewrite below_Qltb. Qed.

Lemma basis_eqb_dec (a b : Basis) :
  basis_eqb a b = if Basis_eq_dec a b then true else false.
Proof. destruct a, b; reflexivity. Qed.

Lemma trace_end_cons (s : nat) (p : Pulse) (tr : list Pulse) :
  trace_end s (p :: tr) = trace_end (p_next p) tr.
Proof. reflexivity. Qed.

Section Trace.

Variable rnd : nat -> Q.

(** One turn of the measurement loop is one pulse of the model. *)
Lemma measure_body_pulse (noise : Q) (tamper : bool) (pulseInterval : Z)
    (aliceBits : list Z) (aliceBases : list Basis) (i : nat) (m : Meas)
    (w : World) :
  let p := spec_pulse rnd noise tamper (draws_per_packet (quantumCh (app w)))
             (nth i aliceBits 0) (nth i aliceBases BZ) (cursor w) in
  let r := measure_body rnd noise tamper pulseInterval aliceBits aliceBases
             i m w in
  fst r = mkMeas (bobBases m ++ [p_basis p]) (bobResults m ++ [p_outcome p])
                 (if p_flipped p then S (tamperIntroducedCount m)
                  else tamperIntroducedCount m)
  /\ cursor (snd r) = p_next p
  /\ draws_per_packet (quantumCh (app (snd r)))
     = draws_per_packet (quantumCh (app w)).
Proof.
  intros p r.
  assert (Er : r = measure_body rnd noise tamper pulseInterval aliceBits
                     aliceBases i m w) by reflexivity.
  clearbody r. unfold measure_body, randBasis in Er.
  subst p. unfold spec_pulse, layered_raw, layered_tamper.
  rewrite <- !below_Qltb, <- basis_eqb_dec, <- !bit_of_draw_uniform,
    <- !basis_of_draw_uniform.
  destruct w as [a k].
  destruct a as [rn qr qd cc qc cm ni nl al bo sf rs qb sk qn pi qs tm sr cs lg].
  cbn [app cursor quantumCh draws_per_packet].
  change (nth i aliceBits 0) with (bit_at aliceBits i).
  change (nth i aliceBases BZ) with (basis_at aliceBases i).
  destruct qc as [pk|]; run_eval Er; rewrite measure_outcome_eq in Er;
    run_eval Er; subst r;
    cbn [fst snd app cursor quantumCh draws_per_packet Nat.add
         p_basis p_outcome p_flipped p_next].
  all: destruct (Qltb (rnd _) noise), (basis_eqb _ _), tamper;
    cbn [andb orb negb fst snd Nat.eqb];
    try (destruct (Qltb _ (1 # 2)); cbn [fst snd Nat.eqb]);
    repeat split; reflexivity.
Qed.

(** The measurement loop is the sequence of pulses of the model. *)
Lemma measure_trace (noise : Q) (tamper : bool) (pulseInterval : Z)
    (aliceBits : list Z) (aliceBases : list Basis) :
  forall (n i : nat) (m : Meas) (w : World),
    let tr := spec_pulses rnd noise tamper
                (draws_per_packet (quantumCh (app w)))
                aliceBits aliceBases n i (cursor w) in
    let r := for_loop n i (measure_body rnd noise tamper pulseInterval
                             aliceBits aliceBases) m w in
    fst r = mkMeas (bobBases m ++ map p_basis tr)
                   (bobResults m ++ map p_outcome tr)
                   (tamperIntroducedCount m + flips tr)
    /\ cursor (snd r) = trace_end (cursor w) tr
    /\ draws_per_packet (quantumCh (app (snd r)))
       = draws_per_packet (quantumCh (app w)).
Proof.
  induction n as [|n IH]; intros i m w; cbv zeta.
  - cbn. rewrite !app_nil_r, Nat.add_0_r. destruct m. repeat split.
  - cbn [for_loop spec_pulses]. unfold bind.
    pose proof (measure_body_pulse noise tamper pulseInterval aliceBits
                  aliceBases i m w) as (E1 & E2 & E3).
    destruct (measure_body rnd noise tamper pulseInterval aliceBits aliceBases
                i m w) as [m' w'].
    cbn [fst snd] in E1, E2, E3. cbv beta iota.
    specialize (IH (S i) m' w'). cbv zeta in IH.
    rewrite E3, E2 in IH. destruct IH as (I1 & I2 & I3).
    rewrite I1, I2, I3, E1.
    cbn [bobBases bobResults tamperIntroducedCount map].
    rewrite <- !app_assoc. cbn [List.app]. rewrite trace_end_cons.
    split; [|split; reflexivity]. f_equal.
    unfold flips. cbn [filter].
    destruct (p_flipped _); cbn [List.length]; lia.
Qed.

(** The preparation loop is Alice's preparation in the model. *)
Lemma prepare_values (N : nat) (w : World) :
  prepare rnd N w =
  ((spec_aliceBits rnd (cursor w) N, spec_aliceBases rnd (cursor w) N),
   mkWorld (app w) (2 * N + cursor w)).
Proof.
  unfold prepare.
  set (P := fun (i : nat) (acc : list Z * list Basis) (w' : World) =>
              acc = (spec_aliceBits rnd (cursor w) i,
                     spec_aliceBases rnd (cursor w) i)
              /\ w' = mkWorld (app w) (2 * i + cursor w)).
  assert (Hbody : forall i s w', P i s w' ->
            P (S i) (fst (prepare_body rnd i s w'))
                    (snd (prepare_body rnd i s w'))).
  { intros i s w' [-> ->]. unfold P. simpl.
    unfold spec_aliceBits, spec_aliceBases.
    rewrite !seq_S, !map_app. simpl.
    rewrite bit_of_draw_uniform, basis_of_draw_uniform.
    replace (i + (i + 0) + cursor w)%nat with (cursor w + (i + (i + 0)))%nat
      by lia.
    split; [reflexivity|]. f_equal. lia. }
  pose proof (for_loop_inv P _ Hbody N 0%nat ([], []) w) as H.
  rewrite Nat.add_0_r in H.
  destruct H as [H1 H2]; [destruct w; now split|].
  rewrite (surjective_pairing (for_loop N 0 (prepare_body rnd) ([], []) w)).
  now rewrite H1, H2.
Qed.

End Trace.

Lemma measure_pulses (rnd : nat -> Q) (noise : Q) (tamper : bool)
    (pulseInterval : Z) (N : nat) (aliceBits : list Z)
    (aliceBases : list Basis) (w : World) :
  let tr := spec_pulses rnd noise tamper
              (draws_per_packet (quantumCh (app w)))
              aliceBits aliceBases N 0 (cursor w) in
  let r := measure rnd noise tamper pulseInterval N aliceBits aliceBases w in
  fst r = mkMeas (map p_basis tr) (map p_outcome tr) (flips tr)
  /\ cursor (snd r) = trace_end (cursor w) tr
  /\ draws_per_packet (quantumCh (app (snd r)))
     = draws_per_packet (quantumCh (app w)).
Proof.
  cbv zeta. unfold measure.
  exact (measure_trace rnd noise tamper pulseInterval aliceBits aliceBases
           N 0 (mkMeas [] [] 0) w).
Qed.

(** A run in terms of the model: the arrays of the two panels, the flip
    count reported on abort, and the draws the key is made of. *)
Lemma run_trace (rnd : nat -> Q) (st : App) (k : nat) :
  qkdRunning st = false ->
  let r := runInitialization rnd (mkWorld st k) in
  let f := app (snd r) in
  let N := param_N st in
  let tr := spec_pulses rnd (param_noise st) (tampering st)
              (draws_per_packet (quantumCh st))
              (spec_aliceBits rnd k N) (spec_aliceBases rnd k N)
              N 0 (2 * N + k) in
  let smp := revealedSample f in
  let c := (trace_end (2 * N + k) tr
            + draws_per_packet (classicalCh st)
              * (4 + match smp with [] => 0 | _ :: _ => 3 end))%nat in
  let L := Nat.max (2 * N) (List.length (sf_indices (sifted f))) in
  a_bits (aliceState f) = spec_aliceBits rnd k N
  /\ a_bases (aliceState f) = spec_aliceBases rnd k N
  /\ b_bases (bobState f) = map p_basis tr
  /\ b_results (bobState f) = map p_outcome tr
  /\ (fst r = AbortEavesdrop ->
      In (L_EavesdropDetected (sample_qber smp) (flips tr)) (logs f))
  /\ (aborted (fst r) = false ->
      sharedKey f = Some (join_bits (fresh_bits rnd c L))
      /\ cursor (snd r)
         = (c + L + if tampering st then 0
                    else 7 + draws_per_packet (quantumCh st))%nat).
Proof.
  intros Hq r.
  assert (Er : r = runInitialization rnd (mkWorld st k)) by reflexivity.
  clearbody r.
  unfold runInitialization in Er. cbn [app] in Er. rewrite Hq in Er.
  set (N := param_N st) in *. set (SS := param_sampleSize st) in *.
  set (PI := param_pulseInterval st) in *. set (NO := param_noise st) in *.
  set (tm := tampering st) in *.
  assert (Etm : tampering st = tm) by reflexivity.
  clearbody N SS PI NO tm.
  destruct st as [rn qr qd cc qc cm ni nl al bo sf rs qb sk qn pi qs tm' sr cs lg].
  cbn [tampering] in Etm. subst tm'. clear Hq.
  cbn [quantumCh classicalCh].
  run_eval Er.
  (* step 1 *)
  rewrite prepare_values in Er. run_eval Er.
  set (aBits := spec_aliceBits rnd k N) in *.
  set (aBases := spec_aliceBases rnd k N) in *.
  (* step 2 *)
  match type of Er with
  | context [measure rnd NO tm PI N aBits aBases ?w] =>
      pose proof (measure_spec rnd NO tm PI N aBits aBases w)
        as (F2 & _ & Bb & Br & Bp & _);
      pose proof (measure_pulses rnd NO tm PI N aBits aBases w)
        as (V2 & C2 & HQ2);
      destruct (measure rnd NO tm PI N aBits aBases w) as [m [a2 c2]]
  end.
  cbn [fst snd app cursor quantumCh] in F2, Bb, Br, Bp, V2, C2, HQ2.
  set (tr := spec_pulses rnd NO tm (draws_per_packet qc) aBits aBases N 0
               (2 * N + k)) in *.
  subst m c2. cbn [bobBases bobResults tamperIntroducedCount] in Er, Bb, Br.
  apply blank_bob_quantum_inv in F2.
  destruct (bobState a2) as [bb br bt bm bp] eqn:EB.
  cbn in Bb, Br, Bp. subst bb br bp.
  set (Q2 := quantumCh a2) in *.
  clearbody Q2. clear EB. subst a2.
  destruct cc as [cpk|]; run_eval Er.
  all: match type of Er with
       | context [(0 <? ?n)%nat] => destruct (0 <? n)%nat eqn:Es
       end.
  all: destruct tm; run_eval Er.
  all: try match type of Er with
       | context [PrimFloat.leb ?q ?t] => destruct (PrimFloat.leb q t) eqn:Eq
       end.
  all: run_eval Er.
  all: try rewrite random_bits_spec in Er.
  all: run_eval Er.
  all: try (destruct Q2 as [qpk|]; run_eval Er).
  all: subst r; cbn [fst snd app cursor aliceState bobState a_bits a_bases
                     b_bases b_results a_phi b_phi revealedSample qber
                     tampering qkdRunning sifted sharedKey qkdDone
                     currentStatus classicalCh logs aborted sf_indices
                     draws_per_packet].
  all: do 4 (split; [reflexivity|]).
  all: split; [intros E; try discriminate E;
               rewrite <- ?app_assoc; cbn [List.app In]; tauto|].
  all: intros E; try discriminate E.
  all: rewrite desiredLen_sift.
  all: match goal with
       | |- context [match ?s with [] => _ | _ :: _ => _ end] =>
           destruct s; cbn [List.length Nat.ltb Nat.leb] in Es
       end; try discriminate Es.
  all: cbn [draws_per_packet] in HQ2; try rewrite <- HQ2.
  all: split; [do 3 f_equal; lia | lia].
Qed.

Lemma below_true (u t : Q) : below u t = true <-> (u < t)%Q.
Proof.
  unfold below. destruct (Qlt_le_dec u t) as [H | H]; split; auto.
  - discriminate.
  - intros H'. exfalso. exact (Qlt_not_le _ _ H' H).
Qed.

Lemma below_false (u t : Q) : below u t = false <-> (t <= u)%Q.
Proof.
  unfold below. destruct (Qlt_le_dec u t) as [H | H]; split; auto.
  - discriminate.
  - intros H'. exfalso. exact (Qlt_not_le _ _ H H').
Qed.

Lemma uniform_bit_is_bit (u : Q) : uniform_bit u = 0 \/ uniform_bit u = 1.
Proof. unfold uniform_bit. destruct (below u (1 # 2)); auto. Qed.

Lemma spec_pulses_length (rnd : nat -> Q) (noise : Q) (tamper : bool)
    (idDraws : nat) (aliceBits : list Z) (aliceBases : list Basis) :
  forall n i s,
    List.length (spec_pulses rnd noise tamper idDraws aliceBits aliceBases
                   n i s) = n.
Proof. induction n as [|n IH]; intros i s; cbn; [reflexivity | now rewrite IH]. Qed.

(** A pulse never ends before the draw after its noise draw. *)
Lemma spec_pulse_next (rnd : nat -> Q) (noise : Q) (tamper : bool)
    (idDraws : nat) (aliceBit : Z) (aliceBasis : Basis) (s : nat) :
  (idDraws + S (S s)
   <= p_next (spec_pulse rnd noise tamper idDraws aliceBit aliceBasis s))%nat.
Proof.
  unfold spec_pulse. cbn [p_next].
  destruct tamper, (below _ noise || negb _); lia.
Qed.

Lemma trace_end_mono (rnd : nat -> Q) (noise : Q) (tamper : bool)
    (idDraws : nat) (aliceBits : list Z) (aliceBases : list Basis) :
  forall n i s,
    (s <= trace_end s (spec_pulses rnd noise tamper idDraws aliceBits
                         aliceBases n i s))%nat.
Proof.
  induction n as [|n IH]; intros i s; [cbn; lia|].
  cbn [spec_pulses]. rewrite trace_end_cons.
  etransitivity; [|apply IH].
  pose proof (spec_pulse_next rnd noise tamper idDraws
                (nth i aliceBits 0) (nth i aliceBases BZ) s). lia.
Qed.

Lemma spec_pulses_firstn (rnd : nat -> Q) (noise : Q) (tamper : bool)
    (idDraws : nat) (aliceBits : list Z) (aliceBases : list Basis) :
  forall n j i s,
    firstn j (spec_pulses rnd noise tamper idDraws aliceBits aliceBases n i s)
    = spec_pulses rnd noise tamper idDraws aliceBits aliceBases
        (Nat.min j n) i s.
Proof.
  induction n as [|n IH]; intros [|j] i s; cbn; try reflexivity.
  now rewrite IH.
Qed.

(** Pulse [j] of a sequence is the model applied at the draw where the
    pulses before it end, and the next pulse starts where it ends. *)
Lemma spec_pulses_nth (rnd : nat -> Q) (noise : Q) (tamper : bool)
    (idDraws : nat) (aliceBits : list Z) (aliceBases : list Basis) :
  forall n i0 s0 j p,
    let tr := spec_pulses rnd noise tamper idDraws aliceBits aliceBases
                n i0 s0 in
    nth_error tr j = Some p ->
    p = spec_pulse rnd noise tamper idDraws
          (nth (i0 + j) aliceBits 0) (nth (i0 + j) aliceBases BZ)
          (trace_end s0 (firstn j tr))
    /\ trace_end s0 (firstn (S j) tr) = p_next p
    /\ (s0 <= trace_end s0 (firstn j tr))%nat
    /\ (p_next p <= trace_end s0 tr)%nat.
Proof.
  induction n as [|n IH]; intros i0 s0 j p tr H; subst tr.
  - destruct j; discriminate H.
  - cbn [spec_pulses] in *.
    set (p0 := spec_pulse rnd noise tamper idDraws (nth i0 aliceBits 0)
                 (nth i0 aliceBases BZ) s0) in *.
    destruct j as [|j].
    + injection H as <-. cbn [firstn]. rewrite Nat.add_0_r.
      split; [reflexivity|]. split; [reflexivity|]. split; [cbn; lia|].
      rewrite trace_end_cons. apply trace_end_mono.
    + cbn [nth_error] in H.
      destruct (IH (S i0) (p_next p0) j p H) as (E1 & E2 & E3 & E4).
      replace (i0 + S j)%nat with (S i0 + j)%nat by lia.
      cbn [firstn]. rewrite !trace_end_cons.
      split; [exact E1|]. split; [exact E2|]. split; [|exact E4].
      pose proof (spec_pulse_next rnd noise tamper idDraws
                    (nth i0 aliceBits 0) (nth i0 aliceBases BZ) s0) as Hn.
      fold p0 in Hn. lia.
Qed.

Ltac pulse_close :=
  intros; subst;
  try match goal with
      | H1 : (?a < ?b)%Q, H2 : (?b <= ?a)%Q |- _ =>
          exfalso; exact (Qlt_not_le _ _ H1 H2)
      end;
  try match goal with
      | H : _ /\ _ |- _ => destruct H
      end;
  try match goal with
      | H : _ \/ _ |- _ => destruct H
      end;
  try match goal with
      | H1 : (?a < ?b)%Q, H2 : (?b <= ?a)%Q |- _ =>
          exfalso; exact (Qlt_not_le _ _ H1 H2)
      end;
  try reflexivity; try discriminate; try congruence;
  try match goal with
      | H : ?x = 0 \/ ?x = 1 |- _ => destruct H; subst; try lia; auto
      end.

(** The model of one pulse, spelled out on the draws. *)
Lemma spec_pulse_layers (rnd : nat -> Q) (noise : Q) (tamper : bool)
    (idDraws : nat) (aliceBit : Z) (aliceBasis : Basis) (s : nat) :
  aliceBit = 0 \/ aliceBit = 1 ->
  let p := spec_pulse rnd noise tamper idDraws aliceBit aliceBasis s in
  let c := (idDraws + S s)%nat in
  let fresh := if Qlt_le_dec (rnd (S c)) (1 # 2) then 0 else 1 in
  ((rnd s < 1 # 2)%Q -> p_basis p = BZ)
  /\ ((1 # 2 <= rnd s)%Q -> p_basis p = BX)
  /\ ((rnd c < noise)%Q -> p_raw p = fresh)
  /\ ((noise <= rnd c)%Q -> p_basis p = aliceBasis -> p_raw p = aliceBit)
  /\ ((noise <= rnd c)%Q -> p_basis p <> aliceBasis -> p_raw p = fresh)
  /\ (exists c1,
        ((rnd c < noise)%Q \/ p_basis p <> aliceBasis -> c1 = S (S c))
        /\ ((noise <= rnd c)%Q /\ p_basis p = aliceBasis -> c1 = S c)
        /\ (tamper = false ->
            p_outcome p = p_raw p /\ p_flipped p = false /\ p_next p = c1)
        /\ (tamper = true ->
            p_next p = S c1
            /\ ((rnd c1 < 1 # 2)%Q ->
                p_outcome p = 1 - p_raw p /\ p_flipped p = true)
            /\ ((1 # 2 <= rnd c1)%Q ->
                p_outcome p = p_raw p /\ p_flipped p = false)))
  /\ (p_flipped p = true <-> p_outcome p <> p_raw p)
  /\ (p_outcome p = 0 \/ p_outcome p = 1).
Proof.
  intros Hbit p c fresh. subst p. unfold spec_pulse.
  fold c. cbn [p_basis p_raw p_outcome p_flipped p_next].
  unfold layered_raw, layered_tamper, uniform_basis, uniform_bit.
  assert (Hfresh : fresh = 0 \/ fresh = 1)
    by (subst fresh; destruct (Qlt_le_dec _ _); auto).
  assert (Ef : (if below (rnd (S c)) (1 # 2) then 0 else 1) = fresh)
    by (unfold below; subst fresh; destruct (Qlt_le_dec _ _); reflexivity).
  rewrite Ef. clearbody fresh. clear Ef.
  destruct (below (rnd s) (1 # 2)) eqn:Es;
    [apply below_true in Es | apply below_false in Es].
  all: destruct (below (rnd c) noise) eqn:Ec;
    [apply below_true in Ec | apply below_false in Ec].
  all: destruct (Basis_eq_dec _ aliceBasis) as [Eb | Eb];
    cbn [orb negb].
  all: destruct tamper; cbn [andb fst snd Nat.eqb].
  all: try match goal with
       | |- context [below (?f ?c1) (1 # 2)] =>
           destruct (below (f c1) (1 # 2)) eqn:Et;
           [apply below_true in Et | apply below_false in Et]
       end; cbn [fst snd Nat.eqb].
  all: repeat match goal with
       | |- _ /\ _ => split
       | |- _ <-> _ => split
       | |- exists _, _ =>
           first [ exists (S (S c)); solve [repeat split; pulse_close]
                 | exists (S c); solve [repeat split; pulse_close] ]
       end.
  all: pulse_close.
Qed.

(** ** The outcomes of a run *)

Lemma spec_aliceBits_nth (rnd : nat -> Q) (k N i : nat) :
  (i < N)%nat ->
  nth i (spec_aliceBits rnd k N) 0 = uniform_bit (rnd (k + 2 * i)%nat).
Proof.
  intros H. unfold spec_aliceBits.
  rewrite (nth_indep _ 0 (uniform_bit (rnd (k + 2 * 0)%nat)))
    by now rewrite length_map, length_seq.
  rewrite (map_nth (fun i => uniform_bit (rnd (k + 2 * i)%nat))).
  now rewrite seq_nth.
Qed.

Lemma spec_aliceBases_nth (rnd : nat -> Q) (k N i : nat) :
  (i < N)%nat ->
  nth i (spec_aliceBases rnd k N) BZ = uniform_basis (rnd (S (k + 2 * i))%nat).
Proof.
  intros H. unfold spec_aliceBases.
  rewrite (nth_indep _ BZ (uniform_basis (rnd (S (k + 2 * 0))%nat)))
    by now rewrite length_map, length_seq.
  rewrite (map_nth (fun i => uniform_basis (rnd (S (k + 2 * i))%nat))).
  now rewrite seq_nth.
Qed.

(** C4.  In a call that passes the guard, what Bob records for pulse [i]
    is the layered model of the specification applied to the draws.
    Alice's bit and basis [i] are made from draws [k + 2 i] and
    [k + 2 i + 1], where [k] draws were made before the call.  Pulse [i]
    starts at a draw [s] after all of Alice's: draw [s] gives Bob's
    basis and, after the draw spent on the packet shown, draw [c] is the
    noise draw.  If it is below the noise level the raw outcome is a
    fresh bit, made from draw [c + 1]; otherwise it is Alice's bit when
    Bob's basis is hers and the fresh bit when it is not.  Only under
    tampering the next unread draw is the tamper coin, and the outcome is
    flipped exactly when the coin is below one half.  Bob's bases and
    results in the panel are the bases and outcomes of these pulses, each
    pulse starting at the draw where the one before it ended; the
    counter of the measurement loop is the number of pulses flipped, and
    that is the count an abort for eavesdropping reports. *)
Theorem measure_outcome_layers (rnd : nat -> Q) (st : App) (k : nat) :
  qkdRunning st = false ->
  let r := runInitialization rnd (mkWorld st k) in
  let f := app (snd r) in
  let N := param_N st in
  let noise := param_noise st in
  let tamper := tampering st in
  let idDraws := draws_per_packet (quantumCh st) in
  let A := aliceState f in
  let B := bobState f in
  let tr := spec_pulses rnd noise tamper idDraws (a_bits A) (a_bases A)
              N 0 (2 * N + k) in
  (List.length tr = N
   /\ b_bases B = map p_basis tr
   /\ b_results B = map p_outcome tr)
  /\ (forall i, (i < N)%nat ->
        nth i (a_bits A) 0
          = (if Qlt_le_dec (rnd (k + 2 * i)%nat) (1 # 2) then 0 else 1)
        /\ nth i (a_bases A) BZ
          = (if Qlt_le_dec (rnd (S (k + 2 * i))%nat) (1 # 2) then BZ else BX))
  /\ (exists start : nat -> nat,
        start 0%nat = (2 * N + k)%nat
        /\ forall i p, nth_error tr i = Some p ->
             let s := start i in
             let aliceBit := nth i (a_bits A) 0 in
             let aliceBasis := nth i (a_bases A) BZ in
             let c := (idDraws + S s)%nat in
             let fresh := if Qlt_le_dec (rnd (S c)) (1 # 2) then 0 else 1 in
             ((2 * N + k <= s)%nat /\ start (S i) = p_next p)
             /\ ((rnd s < 1 # 2)%Q -> p_basis p = BZ)
             /\ ((1 # 2 <= rnd s)%Q -> p_basis p = BX)
             /\ ((rnd c < noise)%Q -> p_raw p = fresh)
             /\ ((noise <= rnd c)%Q -> p_basis p = aliceBasis ->
                 p_raw p = aliceBit)
             /\ ((noise <= rnd c)%Q -> p_basis p <> aliceBasis ->
                 p_raw p = fresh)
             /\ (exists c1,
                   ((rnd c < noise)%Q \/ p_basis p <> aliceBasis ->
                    c1 = S (S c))
                   /\ ((noise <= rnd c)%Q /\ p_basis p = aliceBasis ->
                       c1 = S c)
                   /\ (tamper = false ->
                       p_outcome p = p_raw p /\ p_flipped p = false
                       /\ p_next p = c1)
                   /\ (tamper = true ->
                       p_next p = S c1
                       /\ ((rnd c1 < 1 # 2)%Q ->
                           p_outcome p = 1 - p_raw p /\ p_flipped p = true)
                       /\ ((1 # 2 <= rnd c1)%Q ->
                           p_outcome p = p_raw p /\ p_flipped p = false)))
             /\ (p_flipped p = true <-> p_outcome p <> p_raw p)
             /\ (p_outcome p = 0 \/ p_outcome p = 1))
  /\ (fst r = AbortEavesdrop ->
      In (L_EavesdropDetected (sample_qber (revealedSample f)) (flips tr))
         (logs f))
  /\ (forall (noise' : Q) (tamper' : bool) (pulseInterval : Z) (N' : nat)
             (aliceBits : list Z) (aliceBases : list Basis) (w : World),
        let tr' := spec_pulses rnd noise' tamper'
                     (draws_per_packet (quantumCh (app w)))
                     aliceBits aliceBases N' 0 (cursor w) in
        let d := measure rnd noise' tamper' pulseInterval N' aliceBits
                   aliceBases w in
        bobBases (fst d) = map p_basis tr'
        /\ bobResults (fst d) = map p_outcome tr'
        /\ tamperIntroducedCount (fst d) = flips tr'
        /\ cursor (snd d) = trace_end (cursor w) tr').
Proof.
  intros Hq r f N noise tamper idDraws A B tr.
  pose proof (run_trace rnd st k Hq) as (Ha & Hb & Hbb & Hbr & Hlog & _).
  fold r f N A B in Ha, Hb, Hbb, Hbr, Hlog.
  rewrite <- Ha, <- Hb in Hbb, Hbr, Hlog.
  fold noise tamper idDraws tr in Hbb, Hbr, Hlog.
  split; [split; [apply spec_pulses_length | split; assumption]|].
  split.
  { intros i Hi. rewrite Ha, Hb.
    rewrite spec_aliceBits_nth, spec_aliceBases_nth by exact Hi.
    unfold uniform_bit, uniform_basis, below.
    split; destruct (Qlt_le_dec _ _); reflexivity. }
  split.
  { exists (fun i => trace_end (2 * N + k)%nat (firstn i tr)).
    split; [reflexivity|].
    intros i p Hp.
    assert (Hi : (i < N)%nat).
    { assert (Hn : nth_error tr i <> None) by congruence.
      apply nth_error_Some in Hn. unfold tr in Hn.
      now rewrite spec_pulses_length in Hn. }
    destruct (spec_pulses_nth _ _ _ _ _ _ _ _ _ _ Hp) as (Ep & En & Hs & _).
    cbn [Nat.add] in Ep. fold tr in Ep, En, Hs.
    cbv zeta. split; [split; [exact Hs | exact En]|].
    pose proof (@spec_pulse_layers rnd noise tamper idDraws
                  (nth i (a_bits A) 0) (nth i (a_bases A) BZ)
                  (trace_end (2 * N + k) (firstn i tr))) as HL.
    cbv zeta in HL. rewrite <- Ep in HL. apply HL.
    rewrite Ha, spec_aliceBits_nth by exact Hi. apply uniform_bit_is_bit. }
  split; [exact Hlog|].
  intros noise' tamper' pulseInterval N' aliceBits aliceBases w tr' d.
  destruct (measure_pulses rnd noise' tamper' pulseInterval N' aliceBits
              aliceBases w) as (E1 & E2 & _).
  fold tr' d in E1, E2. rewrite E1. cbn. auto.
Qed.

(** Scenario B: the four outcomes are flipped by the tamper coin. *)
Lemma measure_outcome_layers_witness :
  let rnd := replay drawsB in
  let r := runInitialization rnd (mkWorld stateB 0) in
  let f := app (snd r) in
  let tr := spec_pulses rnd (param_noise stateB) (tampering stateB)
              (draws_per_packet (quantumCh stateB))
              (a_bits (aliceState f)) (a_bases (aliceState f))
              (param_N stateB) 0 (2 * param_N stateB + 0) in
  qkdRunning stateB = false
  /\ (List.length tr = param_N stateB
      /\ b_bases (bobState f) = map p_basis tr
      /\ b_results (bobState f) = map p_outcome tr)
  /\ map p_raw tr = [0; 1; 0; 0]
  /\ b_results (bobState f) = [1; 0; 1; 1]
  /\ flips tr = 4%nat.
Proof.
  split; [reflexivity|].
  split;
    [exact (proj1 (@measure_outcome_layers (replay drawsB) stateB 0 eq_refl))|].
  vm_compute. repeat split.
Defined.

(** ** The key *)

Lemma join_bits_chars (bits : list Z) :
  Forall (fun ch => ch = "0"%char \/ ch = "1"%char)
         (list_ascii_of_string (join_bits bits)).
Proof.
  unfold join_bits. induction bits as [|b bits IH]; [constructor|].
  assert (Hb : show_bit b = "0" \/ show_bit b = "1")
    by (unfold show_bit; destruct (b =? 0); auto).
  destruct bits as [|b' bits].
  - simpl. destruct Hb as [Hb | Hb]; rewrite Hb; simpl;
      (constructor; [auto | constructor]).
  - change (Forall (fun ch => ch = "0"%char \/ ch = "1"%char)
             (list_ascii_of_string
                (show_bit b ++ String.concat "" (map show_bit (b' :: bits))))).
    destruct Hb as [Hb | Hb]; rewrite Hb; simpl; constructor; auto.
Qed.

(** Key derivation reads the next draws and nothing else. *)
Lemma step7_reads_fresh_draws (rnd : nat -> Q) (N : nat)
    (aBitsSifted : list Z) (w : World) :
  let L := Nat.max (2 * N) (List.length aBitsSifted) in
  let d := step7 rnd N aBitsSifted w in
  fst d = join_bits (map (fun j => bit_of_draw (rnd (cursor w + j))%nat)
                         (seq 0 L))
  /\ cursor (snd d) = (cursor w + L)%nat
  /\ sharedKey (app (snd d)) = Some (fst d).
Proof.
  intros L d. assert (Ed : d = step7 rnd N aBitsSifted w) by reflexivity.
  clearbody d. destruct w as [a c].
  run_eval Ed. rewrite random_bits_spec in Ed. run_eval Ed. subst d.
  unfold desiredLen, fresh_bits. rewrite Nat.max_0_l. fold L.
  cbn [fst snd app cursor sharedKey].
  split; [reflexivity|]. split; [lia | reflexivity].
Qed.

(** ** The draws a run depends on *)

Lemma spec_pulse_local (rnd rnd' : nat -> Q) (noise : Q) (tamper : bool)
    (idDraws : nat) (aliceBit : Z) (aliceBasis : Basis) (s : nat) :
  (forall j, (j < p_next (spec_pulse rnd noise tamper idDraws aliceBit
                            aliceBasis s))%nat -> rnd' j = rnd j) ->
  spec_pulse rnd' noise tamper idDraws aliceBit aliceBasis s
  = spec_pulse rnd noise tamper idDraws aliceBit aliceBasis s.
Proof.
  unfold spec_pulse. cbn [p_next]. intros H.
  set (c := (idDraws + S s)%nat) in *.
  assert (Hs : rnd' s = rnd s)
    by (apply H; destruct tamper, (below _ noise || negb _); lia).
  assert (Hc : rnd' c = rnd c)
    by (apply H; destruct tamper, (below _ noise || negb _); lia).
  rewrite Hs, Hc. unfold layered_raw, layered_tamper.
  destruct (below (rnd c) noise) eqn:En;
    destruct (Basis_eq_dec (uniform_basis (rnd s)) aliceBasis) as [Eb | Eb];
    cbn [orb negb] in *.
  all: try (rewrite (H (S c)) by (destruct tamper; lia)).
  all: destruct tamper; cbn [andb]; try reflexivity.
  all: match goal with
       | |- context [below (?g ?x) (1 # 2) && _] => idtac
       | |- context [below (?g ?x) (1 # 2)] =>
           match goal with
           | HH : forall j, _ -> g j = _ |- _ => rewrite (HH x) by lia
           end
       end; reflexivity.
Qed.

Lemma spec_pulses_local (rnd rnd' : nat -> Q) (noise : Q) (tamper : bool)
    (idDraws : nat) (aliceBits : list Z) (aliceBases : list Basis) :
  forall n i s,
    (forall j, (j < trace_end s (spec_pulses rnd noise tamper idDraws
                                   aliceBits aliceBases n i s))%nat ->
               rnd' j = rnd j) ->
    spec_pulses rnd' noise tamper idDraws aliceBits aliceBases n i s
    = spec_pulses rnd noise tamper idDraws aliceBits aliceBases n i s.
Proof.
  induction n as [|n IH]; intros i s H; [reflexivity|].
  cbn [spec_pulses] in *. rewrite trace_end_cons in H.
  set (p := spec_pulse rnd noise tamper idDraws (nth i aliceBits 0)
              (nth i aliceBases BZ) s) in *.
  assert (Hp : spec_pulse rnd' noise tamper idDraws (nth i aliceBits 0)
                 (nth i aliceBases BZ) s = p).
  { apply spec_pulse_local. intros j Hj. apply H.
    pose proof (trace_end_mono rnd noise tamper idDraws aliceBits aliceBases
                  n (S i) (p_next p)). fold p in Hj. lia. }
  rewrite Hp. f_equal. apply IH. exact H.
Qed.

Lemma spec_alice_local (rnd rnd' : nat -> Q) (k N : nat) :
  (forall j, (j < 2 * N + k)%nat -> rnd' j = rnd j) ->
  spec_aliceBits rnd' k N = spec_aliceBits rnd k N
  /\ spec_aliceBases rnd' k N = spec_aliceBases rnd k N.
Proof.
  intros H. unfold spec_aliceBits, spec_aliceBases.
  split; apply map_ext_in; intros i Hi; apply in_seq in Hi;
    rewrite H by lia; reflexivity.
Qed.

(** ** The characters of the key *)

Lemma concat_empty_cons (x : string) (l : list string) :
  String.concat "" (x :: l) = (x ++ String.concat "" l)%string.
Proof.
  destruct l as [|y l]; simpl; [|reflexivity].
  induction x as [|c x IH]; simpl; [reflexivity | now rewrite <- IH].
Qed.

Lemma join_bits_get (bits : list Z) :
  forall j,
    String.get j (join_bits bits)
    = option_map (fun b => if b =? 0 then "0"%char else "1"%char)
                 (nth_error bits j).
Proof.
  unfold join_bits. induction bits as [|b bits IH]; intros j.
  - destruct j; reflexivity.
  - cbn [map]. rewrite concat_empty_cons. unfold show_bit at 1.
    destruct j as [|j]; cbn [nth_error option_map].
    + destruct (b =? 0); reflexivity.
    + destruct (b =? 0); cbn; apply IH.
Qed.

Lemma fresh_key_chars (rnd : nat -> Q) (c L j : nat) :
  (j < L)%nat ->
  String.get j (join_bits (fresh_bits rnd c L))
  = Some (if Qlt_le_dec (rnd (c + j)%nat) (1 # 2) then "0"%char else "1"%char).
Proof.
  intros Hj. rewrite join_bits_get. unfold fresh_bits.
  rewrite nth_error_map, nth_error_seq.
  replace (j <? L)%nat with true by (symmetry; apply Nat.ltb_lt; exact Hj).
  cbn [option_map Nat.add]. rewrite bit_of_draw_uniform.
  unfold uniform_bit, below. now destruct (Qlt_le_dec _ _).
Qed.

(** C3.  In a call that passes the guard and does not abort, the key has
    [L = max(2 N, number of sifted pairs)] characters and character [j]
    is ['0'] when draw [c + j] is below one half and ['1'] otherwise,
    where [c] is the number of draws made before key derivation: the [k]
    draws before the call, the [2 N] draws of Alice's preparation, the
    draws of the [N] pulses, and one draw for each classical packet sent
    (four, and three more when a sample is revealed).  The draws of the
    key are read by nothing else: the run ends [L] draws later, after the
    draws of phi if phi is sent, and with any other sequence of draws
    that agrees with this one below [c] the run returns the same way with
    the same arrays, the same sifted and corrected bits and the same
    sample, and its key is made in the same way of its own draws from [c]
    on.  After any call that passes the guard, a [sharedKey] that is not
    [null] has at least [2 N] characters. *)
Theorem derived_key_is_fresh_bits (rnd : nat -> Q) (st : App) (k : nat) :
  qkdRunning st = false ->
  let r := runInitialization rnd (mkWorld st k) in
  let f := app (snd r) in
  let N := param_N st in
  let A := aliceState f in
  let B := bobState f in
  let tr := spec_pulses rnd (param_noise st) (tampering st)
              (draws_per_packet (quantumCh st)) (a_bits A) (a_bases A)
              N 0 (2 * N + k) in
  let c := (trace_end (2 * N + k) tr
            + draws_per_packet (classicalCh st)
              * (4 + match revealedSample f with [] => 0 | _ :: _ => 3 end))%nat in
  let L := Nat.max (2 * N) (List.length (sf_indices (sifted f))) in
  let made_of := fun (g : nat -> Q) (key : string) =>
    String.length key = L
    /\ forall j, (j < L)%nat ->
         String.get j key
         = Some (if Qlt_le_dec (g (c + j)%nat) (1 # 2)
                 then "0"%char else "1"%char) in
  (if aborted (fst r) then sharedKey f = None
   else (exists key, sharedKey f = Some key /\ made_of rnd key)
        /\ (2 * N + k <= trace_end (2 * N + k) tr)%nat
        /\ cursor (snd r)
           = (c + L + if tampering st then 0
                      else 7 + draws_per_packet (quantumCh st))%nat
        /\ (forall rnd' : nat -> Q,
              (forall j, (j < c)%nat -> rnd' j = rnd j) ->
              let r' := runInitialization rnd' (mkWorld st k) in
              let f' := app (snd r') in
              fst r' = fst r
              /\ (a_bits (aliceState f') = a_bits A
                  /\ a_bases (aliceState f') = a_bases A
                  /\ b_bases (bobState f') = b_bases B
                  /\ b_results (bobState f') = b_results B)
              /\ sifted f' = sifted f
              /\ revealedSample f' = revealedSample f
              /\ exists key', sharedKey f' = Some key' /\ made_of rnd' key'))
  /\ (forall key, sharedKey f = Some key -> (2 * N <= String.length key)%nat).
Proof.
  intros Hq r f N A B tr c L made_of.
  pose proof (run_trace rnd st k Hq) as (Ha & Hb & Hbb & Hbr & _ & Hkey).
  pose proof (run_outcome rnd st k Hq)
    as (_ & _ & _ & _ & Es & _ & _ & _ & Hcases).
  cbv zeta in Hkey, Es, Hcases.
  fold r f N A B in Ha, Hb, Hbb, Hbr, Hkey, Es, Hcases.
  rewrite <- Ha, <- Hb in Hbb, Hbr, Hkey.
  fold tr c L in Hkey.
  assert (Hmade : forall g, made_of g (join_bits (fresh_bits g c L))).
  { intros g. split.
    - now rewrite join_bits_length, fresh_bits_length.
    - intros j Hj. now apply fresh_key_chars. }
  assert (Hte : (2 * N + k <= trace_end (2 * N + k) tr)%nat)
    by apply trace_end_mono.
  destruct Hcases
    as [(_ & _ & He & _ & _ & Hk & _)
       | (Hor & Hx & _ & Hsf & _ & _)].
  - (* aborted *)
    assert (Hab : aborted (fst r) = true)
      by (rewrite He; now destruct (PrimFloat.leb _ _)).
    rewrite Hab. split; [exact Hk|]. intros key Hkey'. congruence.
  - assert (Hab : aborted (fst r) = false)
      by (rewrite Hx; now destruct (tampering st)).
    rewrite Hab. destruct (Hkey Hab) as (Hsk & Hcur).
    split.
    + split; [exists (join_bits (fresh_bits rnd c L)); split; [exact Hsk | apply Hmade]|].
      split; [exact Hte|]. split; [exact Hcur|].
      intros rnd' Hag r' f'.
      pose proof (run_trace rnd' st k Hq)
        as (Ha' & Hb' & Hbb' & Hbr' & _ & Hkey').
      pose proof (run_outcome rnd' st k Hq)
        as (_ & _ & _ & _ & Es' & _ & _ & _ & Hcases').
      cbv zeta in Hkey', Es', Hcases'.
      fold r' f' N in Ha', Hb', Hbb', Hbr', Hkey', Es', Hcases'.
      assert (Htc : (trace_end (2 * N + k) tr <= c)%nat) by (unfold c; lia).
      destruct (@spec_alice_local rnd rnd' k N) as [EA EB];
        [intros j Hj; apply Hag; lia|].
      rewrite EA, EB in *.
      assert (ET : spec_pulses rnd' (param_noise st) (tampering st)
                     (draws_per_packet (quantumCh st))
                     (spec_aliceBits rnd k N) (spec_aliceBases rnd k N)
                     N 0 (2 * N + k) = tr).
      { unfold tr. rewrite Ha, Hb. apply spec_pulses_local.
        intros j Hj. apply Hag. unfold tr in Htc. rewrite Ha, Hb in Htc. lia. }
      rewrite ET in *.
      fold tr in Hbb, Hbr.
      assert (E1 : a_bits (aliceState f') = a_bits A)
        by (rewrite Ha'; symmetry; exact Ha).
      assert (E2 : a_bases (aliceState f') = a_bases A)
        by (rewrite Hb'; symmetry; exact Hb).
      assert (E3 : b_bases (bobState f') = b_bases B)
        by (rewrite Hbb'; symmetry; exact Hbb).
      assert (E4 : b_results (bobState f') = b_results B)
        by (rewrite Hbr'; symmetry; exact Hbr).
      rewrite E1, E2, E3, E4 in Es', Hcases'.
      assert (E5 : revealedSample f' = revealedSample f)
        by (rewrite Es'; symmetry; exact Es).
      rewrite <- Es in Hor. rewrite <- Es' in Hcases'.
      destruct Hcases'
        as [(Ht' & Hne' & _) | (_ & Hx' & _ & Hsf' & _ & _)].
      { exfalso. rewrite E5 in Hne'. destruct Hor; congruence. }
      assert (E6 : sifted f' = sifted f)
        by (rewrite Hsf'; symmetry; exact Hsf).
      assert (Hab' : aborted (fst r') = false)
        by (rewrite Hx'; now destruct (tampering st)).
      destruct (Hkey' Hab') as (Hsk' & _).
      rewrite E5, E6 in Hsk'. fold c L in Hsk'.
      split; [rewrite Hx'; symmetry; exact Hx|].
      split; [exact (conj E1 (conj E2 (conj E3 E4)))|]. split; [exact E6|].
      split; [exact E5|].
      exists (join_bits (fresh_bits rnd' c L)). split; [exact Hsk' | apply Hmade].
    + intros key Hkey'. rewrite Hsk in Hkey'. injection Hkey' as <-.
      rewrite join_bits_length, fresh_bits_length. lia.
Qed.

(** Scenario A with eight more draws: the key is the string of their
    bits. *)
Lemma scenario_A_key :
  sharedKey (app (snd (runInitialization (replay drawsK) (mkWorld stateA 0))))
  = Some "10110010".
Proof. vm_compute. reflexivity. Qed.

Lemma derived_key_is_fresh_bits_witness :
  let rnd := replay drawsK in
  let st := stateA in
  let k := 0%nat in
  let r := runInitialization rnd (mkWorld st k) in
  let f := app (snd r) in
  let N := param_N st in
  let A := aliceState f in
  let B := bobState f in
  let tr := spec_pulses rnd (param_noise st) (tampering st)
              (draws_per_packet (quantumCh st)) (a_bits A) (a_bases A)
              N 0 (2 * N + k) in
  let c := (trace_end (2 * N + k) tr
            + draws_per_packet (classicalCh st)
              * (4 + match revealedSample f with [] => 0 | _ :: _ => 3 end))%nat in
  let L := Nat.max (2 * N) (List.length (sf_indices (sifted f))) in
  let made_of := fun (g : nat -> Q) (key : string) =>
    String.length key = L
    /\ forall j, (j < L)%nat ->
         String.get j key
         = Some (if Qlt_le_dec (g (c + j)%nat) (1 # 2)
                 then "0"%char else "1"%char) in
  qkdRunning st = false
  /\ (c = 29%nat /\ L = 8%nat /\ sharedKey f = Some "10110010")
  /\ (if aborted (fst r) then sharedKey f = None
      else (exists key, sharedKey f = Some key /\ made_of rnd key)
        /\ (2 * N + k <= trace_end (2 * N + k) tr)%nat
        /\ cursor (snd r)
           = (c + L + if tampering st then 0
                      else 7 + draws_per_packet (quantumCh st))%nat
        /\ (forall rnd' : nat -> Q,
              (forall j, (j < c)%nat -> rnd' j = rnd j) ->
              let r' := runInitialization rnd' (mkWorld st k) in
              let f' := app (snd r') in
              fst r' = fst r
              /\ (a_bits (aliceState f') = a_bits A
                  /\ a_bases (aliceState f') = a_bases A
                  /\ b_bases (bobState f') = b_bases B
                  /\ b_results (bobState f') = b_results B)
              /\ sifted f' = sifted f
              /\ revealedSample f' = revealedSample f
              /\ exists key', sharedKey f' = Some key' /\ made_of rnd' key'))
  /\ (forall key, sharedKey f = Some key -> (2 * N <= String.length key)%nat).
Proof.
  split; [reflexivity|].
  split; [vm_compute; repeat split|].
  apply (@derived_key_is_fresh_bits (replay drawsK) stateA 0). reflexivity.
Defined.

(** ** The sample and the error rate *)

(** C5, as amended.  After a call that passes the guard, the error rate
    is the number of revealed entries whose two bits differ divided by the
    number of revealed entries, which is [min(sampleSize, number of
    sifted pairs)], and it is [0] when no entry was revealed.  The
    division is the binary64 division of the two counts. *)
Theorem qber_is_mismatch_rate_of_sample
    (rnd : nat -> Q) (st : App) (k : nat) :
  qkdRunning st = false ->
  let r := runInitialization rnd (mkWorld st k) in
  let f := app (snd r) in
  let smp := revealedSample f in
  let mismatches :=
    List.length (filter (fun e => negb (s_alice e =? s_bob e)) smp) in
  let number := fun n : nat => PrimFloat.of_uint63 (Uint63.of_Z (Z.of_nat n)) in
  List.length smp =
    Nat.min (param_sampleSize st) (List.length (sf_indices (sifted f)))
  /\ qber f = Some (match smp with
                    | [] => 0%float
                    | _ :: _ => PrimFloat.div (number mismatches)
                                              (number (List.length smp))
                    end).
Proof.
  intros Hq r f smp mismatches number. subst number mismatches smp f r.
  pose proof (run_outcome rnd st k Hq) as H. cbv zeta in H.
  destruct H as (_ & _ & _ & _ & Es & Eqb & _ & _ & Hcases).
  set (r := runInitialization rnd (mkWorld st k)) in *.
  set (f := app (snd r)) in *.
  set (kept := sift (param_N st) _ _ _ _) in *.
  assert (Hidx : sf_indices (sifted f) = sf_indices kept).
  { destruct Hcases as [(_ & _ & _ & _ & -> & _) | (_ & _ & _ & -> & _)];
      reflexivity. }
  rewrite <- Es in Eqb. split.
  - rewrite Es, Hidx. apply sample_length.
  - rewrite Eqb. unfold sample_qber, sample_errors, count_to_number.
    now destruct (revealedSample f).
Qed.

Lemma qber_is_mismatch_rate_of_sample_witness :
  let r := runInitialization (replay drawsN1) (mkWorld stateN1 0) in
  let f := app (snd r) in
  let smp := revealedSample f in
  let mismatches :=
    List.length (filter (fun e => negb (s_alice e =? s_bob e)) smp) in
  let number := fun n : nat => PrimFloat.of_uint63 (Uint63.of_Z (Z.of_nat n)) in
  List.length smp =
    Nat.min (param_sampleSize stateN1) (List.length (sf_indices (sifted f)))
  /\ qber f = Some (match smp with
                    | [] => 0%float
                    | _ :: _ => PrimFloat.div (number mismatches)
                                              (number (List.length smp))
                    end).
Proof.
  apply (@qber_is_mismatch_rate_of_sample (replay drawsN1) stateN1 0).
  reflexivity.
Defined.

(** C5 as stated fails twice.  The divisor is not [sampleSize]: with
    sample size 2, one sifted pair and one mismatch the error rate is 1,
    not one half.  And the division is not exact: with one mismatch among
    three revealed pairs the error rate stored is the double
    [6004799503160661 / 2^54], which is not one third. *)
Lemma qber_not_divided_by_sampleSize :
  (let r := runInitialization (replay drawsN1) (mkWorld stateN1 0) in
   let f := app (snd r) in
   param_sampleSize stateN1 = 2%nat
   /\ sample_errors (revealedSample f) = 1%nat
   /\ qber f = Some 1%float
   /\ PrimFloat.eqb 1%float 0.5%float = false)
  /\ (let r := runInitialization (replay drawsN3) (mkWorld stateN3 0) in
      let f := app (snd r) in
      List.length (revealedSample f) = 3%nat
      /\ sample_errors (revealedSample f) = 1%nat
      /\ exists q, qber f = Some q
                   /\ Prim2SF q = S754_finite false 6004799503160661 (-54)
                   /\ 3 * 6004799503160661 <> 2 ^ 54).
Proof.
  cbv zeta. split.
  - repeat split; vm_compute; reflexivity.
  - split; [vm_compute; reflexivity|]. split; [vm_compute; reflexivity|].
    eexists. split; [vm_compute; reflexivity|].
    split; [vm_compute; reflexivity | discriminate].
Qed.



(** ** Error correction *)

(** Step 6, started in any state, replaces Bob's sifted bits by the
    array it is given and leaves the other two arrays alone. *)
Lemma step6_overwrites_bobBits (rnd : nat -> Q) (pulseInterval : Z)
    (aBitsSifted : list Z) (w : World) :
  sifted (app (snd (step6 rnd pulseInterval aBitsSifted w))) =
  mkSifted (sf_indices (sifted (app w))) (sf_aliceBits (sifted (app w)))
           aBitsSifted.
Proof.
  remember (step6 rnd pulseInterval aBitsSifted w) as d eqn:Ed.
  destruct w as [a c].
  destruct a as [rn qr qd cc qc cm ni nl al bo sf rs qb sk qn pi qs tm sr cs lg].
  destruct cc as [cpk|]; run_eval Ed; now subst d.
Qed.

(** C7.  After a call that passes the guard, the indices and Alice's
    bits of [sifted] are those computed by the sifting loop, and the three
    arrays have the same length.  When the run did not abort, Bob's bits
    are a copy of Alice's, so that the two agree at every position, and
    the packet of the error correction is among those put on the classical
    channel; when it aborted, Bob's bits are still the measured ones and
    no such packet was sent.  Step 6 itself, in any state, only replaces
    Bob's array. *)
Theorem error_correction_overwrites_bob
    (rnd : nat -> Q) (st : App) (k : nat) :
  qkdRunning st = false ->
  let r := runInitialization rnd (mkWorld st k) in
  let f := app (snd r) in
  let A := aliceState f in
  let B := bobState f in
  let kept := sift (param_N st) (a_bases A) (b_bases B)
                   (a_bits A) (b_results B) in
  sf_indices (sifted f) = sf_indices kept
  /\ sf_aliceBits (sifted f) = sf_aliceBits kept
  /\ List.length (sf_bobBits (sifted f)) = List.length (sf_bobBits kept)
  /\ List.length (sf_bobBits (sifted f)) = List.length (sf_indices kept)
  /\ sf_bobBits (sifted f) =
     (if aborted (fst r) then sf_bobBits kept else sf_aliceBits (sifted f))
  /\ (if aborted (fst r) then True
      else forall j, nth_error (sf_bobBits (sifted f)) j =
                     nth_error (sf_aliceBits (sifted f)) j)
  /\ (forall p0, classicalCh st = Some p0 ->
      exists new, classicalCh f = Some (p0 ++ new)
                  /\ existsb sent_EC new = negb (aborted (fst r)))
  /\ (forall pulseInterval aBitsSifted w,
        sifted (app (snd (step6 rnd pulseInterval aBitsSifted w))) =
        mkSifted (sf_indices (sifted (app w)))
                 (sf_aliceBits (sifted (app w))) aBitsSifted).
Proof.
  intros Hq r f A B kept. subst kept B A f r.
  pose proof (run_outcome rnd st k Hq) as H. cbv zeta in H.
  destruct H as (_ & _ & _ & _ & _ & _ & _ & _ & Hcases).
  set (r := runInitialization rnd (mkWorld st k)) in *.
  set (f := app (snd r)) in *.
  set (kept := sift (param_N st) _ _ _ _) in *.
  assert (Hl : List.length (sf_aliceBits kept) = List.length (sf_indices kept)
               /\ List.length (sf_bobBits kept) = List.length (sf_indices kept)).
  { unfold kept. rewrite sift_spec. simpl. now rewrite !length_map. }
  destruct Hl as [Hla Hlb].
  destruct Hcases
    as [(_ & _ & He & _ & Hsf & _ & _ & _ & _ & Hec)
       | (_ & He & _ & Hsf & _ & _ & _ & Hec)].
  - replace (aborted (fst r)) with true
      by (rewrite He; now destruct (PrimFloat.leb _ _)).
    rewrite Hsf. repeat split; auto using step6_overwrites_bobBits.
  - replace (aborted (fst r)) with false
      by (rewrite He; now destruct (tampering st)).
    rewrite Hsf. simpl.
    repeat split; auto using step6_overwrites_bobBits. lia.
Qed.

Lemma error_correction_overwrites_bob_witness :
  let rnd := replay drawsN1 in
  let r := runInitialization rnd (mkWorld stateN1 0) in
  let f := app (snd r) in
  let A := aliceState f in
  let B := bobState f in
  let kept := sift (param_N stateN1) (a_bases A) (b_bases B)
                   (a_bits A) (b_results B) in
  sf_indices (sifted f) = sf_indices kept
  /\ sf_aliceBits (sifted f) = sf_aliceBits kept
  /\ List.length (sf_bobBits (sifted f)) = List.length (sf_bobBits kept)
  /\ List.length (sf_bobBits (sifted f)) = List.length (sf_indices kept)
  /\ sf_bobBits (sifted f) =
     (if aborted (fst r) then sf_bobBits kept else sf_aliceBits (sifted f))
  /\ (if aborted (fst r) then True
      else forall j, nth_error (sf_bobBits (sifted f)) j =
                     nth_error (sf_aliceBits (sifted f)) j)
  /\ (forall p0, classicalCh stateN1 = Some p0 ->
      exists new, classicalCh f = Some (p0 ++ new)
                  /\ existsb sent_EC new = negb (aborted (fst r)))
  /\ (forall pulseInterval aBitsSifted w,
        sifted (app (snd (step6 rnd pulseInterval aBitsSifted w))) =
        mkSifted (sf_indices (sifted (app w)))
                 (sf_aliceBits (sifted (app w))) aBitsSifted).
Proof.
  apply (@error_correction_overwrites_bob (replay drawsN1) stateN1 0).
  reflexivity.
Defined.

(** ** The signature round *)

(** What a call of [signAndSend] that passes its guard leaves behind. *)
Lemma signAndSend_outcome (rnd : nat -> Q) (st : App) (k : nat) :
  qkdDone st = true -> qkdRunning st = false -> signRunning st = false ->
  let r := signAndSend rnd (mkWorld st k) in
  let f := app (snd r) in
  fst r = (if tampering st then SignTamperDetected else SignAccepted)
  /\ currentStatus f = (if tampering st then T_TamperDuringQIBS
                        else T_SigAccepted)
  /\ b_text (bobState f) = (if tampering st then T_VerifFailed
                            else T_VerifComplete)
  /\ a_text (aliceState f) = (if tampering st then T_SigSentTamper
                              else T_SigSentAwaiting)
  /\ logs f = logs st
              ++ [L_DataCollected (rnd k); L_EncodedP; T_ComputingS;
                  L_ComputedS; L_SentP; L_SentS; L_SentID; T_BobComputes]
              ++ (if tampering st then [L_TamperQIBS; T_TamperDuringQIBS]
                  else [T_SigAccepted; L_BobMatches])
  /\ signRunning f = false
  /\ tampering f = tampering st
  /\ qkdDone f = true
  /\ sharedKey f = sharedKey st.
Proof.
  intros Hd Hr Hs r.
  assert (Er : r = signAndSend rnd (mkWorld st k)) by reflexivity.
  clearbody r. unfold signAndSend in Er. cbn [app] in Er.
  rewrite Hd, Hr, Hs in Er.
  destruct st as [rn qr qd cc qc cm ni nl al bo sf rs qb sk qn pi qs tm sr cs lg].
  cbn [qkdDone] in Hd. subst qd.
  destruct qc as [qpk|], tm; run_eval Er; subst r;
    cbn [fst snd app currentStatus bobState aliceState a_text b_text logs
         signRunning tampering qkdDone sharedKey];
    rewrite <- ?app_assoc; repeat split.
Qed.

(** C8.  A call of [signAndSend] that passes its guard ends as the
    tamper flag says: with tampering on the call returns from the failure
    branch (not verified, tampering detected), Bob's panel shows the
    failed verification and the two lines reporting the integrity
    violation close the log; with tampering off it runs to the end and
    the signature is accepted.  Two calls that pass the guard with the
    same tamper flag end the same way, whatever the rest of the state and
    the random draws are. *)
Theorem sign_outcome_follows_tamper_flag
    (rnd : nat -> Q) (st : App) (k : nat) :
  qkdDone st = true -> qkdRunning st = false -> signRunning st = false ->
  let r := signAndSend rnd (mkWorld st k) in
  let f := app (snd r) in
  fst r = (if tampering st then SignTamperDetected else SignAccepted)
  /\ session_verified (fst r) = Some (negb (tampering st))
  /\ session_tamperDetected (fst r) = tampering st
  /\ currentStatus f = (if tampering st then T_TamperDuringQIBS
                        else T_SigAccepted)
  /\ b_text (bobState f) = (if tampering st then T_VerifFailed
                            else T_VerifComplete)
  /\ logs f = logs st
              ++ [L_DataCollected (rnd k); L_EncodedP; T_ComputingS;
                  L_ComputedS; L_SentP; L_SentS; L_SentID; T_BobComputes]
              ++ (if tampering st then [L_TamperQIBS; T_TamperDuringQIBS]
                  else [T_SigAccepted; L_BobMatches])
  /\ signRunning f = false
  /\ (forall (rnd' : nat -> Q) (st' : App) (k' : nat),
        qkdDone st' = true -> qkdRunning st' = false ->
        signRunning st' = false ->
        tampering st' = tampering st ->
        let r' := signAndSend rnd' (mkWorld st' k') in
        fst r' = fst r
        /\ currentStatus (app (snd r')) = currentStatus f
        /\ b_text (bobState (app (snd r'))) = b_text (bobState f)
        /\ a_text (aliceState (app (snd r'))) = a_text (aliceState f)).
Proof.
  intros Hd Hr Hs r f.
  destruct (signAndSend_outcome rnd st k Hd Hr Hs)
    as (He & Hst & Hb & Ha & Hl & Hsr & _).
  fold r in He. fold r f in Hst, Hb, Ha, Hl, Hsr.
  split; [exact He|].
  split; [rewrite He; now destruct (tampering st)|].
  split; [rewrite He; now destruct (tampering st)|].
  do 4 (split; [assumption|]).
  intros rnd' st' k' Hd' Hr' Hs' Ht r'.
  destruct (signAndSend_outcome rnd' st' k' Hd' Hr' Hs')
    as (He' & Hst' & Hb' & Ha' & _).
  fold r' in He', Hst', Hb', Ha'.
  rewrite He', Hst', Hb', Ha', He, Hst, Hb, Ha, Ht. auto.
Qed.

(** The state Scenario A ends in, tampering off. *)
Lemma sign_outcome_follows_tamper_flag_witness :
  let st := app (snd (runInitialization (replay drawsA) (mkWorld stateA 0))) in
  let rnd := replay [lo] in
  let r := signAndSend rnd (mkWorld st 0) in
  let f := app (snd r) in
  fst r = (if tampering st then SignTamperDetected else SignAccepted)
  /\ session_verified (fst r) = Some (negb (tampering st))
  /\ session_tamperDetected (fst r) = tampering st
  /\ currentStatus f = (if tampering st then T_TamperDuringQIBS
                        else T_SigAccepted)
  /\ b_text (bobState f) = (if tampering st then T_VerifFailed
                            else T_VerifComplete)
  /\ logs f = logs st
              ++ [L_DataCollected (rnd 0%nat); L_EncodedP; T_ComputingS;
                  L_ComputedS; L_SentP; L_SentS; L_SentID; T_BobComputes]
              ++ (if tampering st then [L_TamperQIBS; T_TamperDuringQIBS]
                  else [T_SigAccepted; L_BobMatches])
  /\ signRunning f = false
  /\ (forall (rnd' : nat -> Q) (st' : App) (k' : nat),
        qkdDone st' = true -> qkdRunning st' = false ->
        signRunning st' = false ->
        tampering st' = tampering st ->
        let r' := signAndSend rnd' (mkWorld st' k') in
        fst r' = fst r
        /\ currentStatus (app (snd r')) = currentStatus f
        /\ b_text (bobState (app (snd r'))) = b_text (bobState f)
        /\ a_text (aliceState (app (snd r'))) = a_text (aliceState f)).
Proof.
  apply (@sign_outcome_follows_tamper_flag (replay [lo])
           (app (snd (runInitialization (replay drawsA) (mkWorld stateA 0)))) 0);
    reflexivity.
Defined.

(** ** Calls in the wrong state *)

(** C9.  A call of [runInitialization] while a run is active, and a call
    of [signAndSend] unless [qkdDone] holds and neither a run nor a
    signature round is active, return at once: the state is the one the
    call found and no draw was made. *)
Theorem invalid_calls_change_nothing (rnd : nat -> Q) (w : World) :
  (qkdRunning (app w) = true ->
   runInitialization rnd w = (Rejected, w))
  /\ (qkdDone (app w) = false \/ qkdRunning (app w) = true
      \/ signRunning (app w) = true ->
      signAndSend rnd w = (SignRejected, w)).
Proof.
  split.
  - intros H. unfold runInitialization. now rewrite H.
  - intros H. unfold signAndSend.
    destruct H as [-> | [-> | ->]]; simpl;
      [reflexivity | now rewrite orb_true_r
                   | now rewrite orb_true_r].
Qed.

Lemma invalid_calls_change_nothing_witness :
  runInitialization (replay drawsA) (mkWorld stateBusy 0)
    = (Rejected, mkWorld stateBusy 0)
  /\ signAndSend (replay drawsA) (mkWorld stateA 0)
     = (SignRejected, mkWorld stateA 0).
Proof.
  split.
  - apply (proj1 (invalid_calls_change_nothing (replay drawsA)
                    (mkWorld stateBusy 0))). reflexivity.
  - apply (proj2 (invalid_calls_change_nothing (replay drawsA)
                    (mkWorld stateA 0))). left. reflexivity.
Defined.

(** ** The scenarios of the specification *)

(** Scenario A: indices 0 and 3 are sifted, the bits agree, the error
    rate over the two revealed pairs is 0 and the run completes. *)
Example scenario_A :
  let r := runInitialization (replay drawsA) (mkWorld stateA 0) in
  let f := app (snd r) in
  fst r = Complete
  /\ a_bits (aliceState f) = [0; 1; 1; 0]
  /\ a_bases (aliceState f) = [BZ; BX; BZ; BX]
  /\ b_bases (bobState f) = [BZ; BZ; BX; BX]
  /\ sifted f = mkSifted [0; 3]%nat [0; 0] [0; 0]
  /\ revealedSample f = [mkSample 0 0 0; mkSample 3 0 0]
  /\ qber f = Some 0%float
  /\ sharedKey f = Some "00000000"
  /\ qkdDone f = true.
Proof.
  vm_compute. repeat split.
Qed.

(** Scenario B: with every tamper coin a flip, four flips are counted in
    the measurement loop, the run aborts and no key is set. *)
Example scenario_B :
  let rnd := replay drawsB in
  let w1 := snd (init_reset (mkWorld stateB 0)) in
  let a := step1 rnd 4 w1 in
  let m := step2 rnd 0%Q true 1000 4 (fst (fst a)) (snd (fst a)) (snd a) in
  let r := runInitialization rnd (mkWorld stateB 0) in
  tamperIntroducedCount (fst m) = 4%nat
  /\ b_results (bobState (app (snd r))) = bobResults (fst m)
  /\ aborted (fst r) = true
  /\ sharedKey (app (snd r)) = None.
Proof. vm_compute. repeat split. Qed.

(** Scenarios C and D: after the run of Scenario A, a signature round is
    accepted; if the tamper button is pressed first, it fails. *)
Example scenario_C_and_D :
  let done := snd (runInitialization (replay drawsA) (mkWorld stateA 0)) in
  let tampered := snd (handleTamperClick done) in
  let c := fst (signAndSend (replay drawsA) done) in
  let d := fst (signAndSend (replay drawsA) tampered) in
  (session_verified c = Some true /\ session_tamperDetected c = false)
  /\ tampering (app tampered) = true
  /\ (session_verified d = Some false /\ session_tamperDetected d = true).
Proof. vm_compute. repeat split. Qed.
